(** * APNG-Builder: a shallow embedding of [apng.js]

    The development follows the source file top-down in its data and
    bottom-up in its functions: the JavaScript values and typed-array
    primitives the script relies on, then [crc32], [joinBuffers],
    [lookForIDAT], and the [APNGmaker] class ([buildChunk], [add],
    [build] and the constructor).  The theorems come after all the
    definitions. *)

From Stdlib Require Import String Ascii.
From Stdlib Require Import QArith.
From Stdlib Require Import ZArith List Lia Bool Permutation.
From Stdlib Require Import Strings.Byte.
From coqutil Require Import Byte.
From coqutil Require Import Z.bitblast.
Import ListNotations.

Local Open Scope Z_scope.
Local Open Scope list_scope.

(* ===================================================================== *)
(** ** JavaScript values and number conversions *)
(* ===================================================================== *)

Module JS.

(** The values that reach the numeric parameters of the script.
    [JSnum z] is the Number [z], an integer; [JSfraction q] is a finite
    Number given as a fraction, which every finite Number is;
    [JSinfinity] is Infinity or -Infinity; [JSNaN] stands for NaN.
    Strings and objects are left out. *)
Inductive value : Type :=
| JSundefined
| JSnull
| JSbool (b : bool)
| JSNaN
| JSnum (z : Z)
| JSinfinity (negative : bool)
| JSfraction (q : Q).

(** Numbers, as ToNumber returns them. *)
Inductive number : Type :=
| NotANumber
| Infinite (negative : bool)
| Finite (q : Q).

(** What the script can throw: the two built-in errors raised by the
    typed-array and property accesses, and the value of a [throw]
    statement. *)
Inductive exn : Type :=
| RangeError
| TypeError
| Thrown (v : string).

Inductive result (A : Type) : Type :=
| Ok (a : A)
| Throw (e : exn).
Arguments Ok {A} a.
Arguments Throw {A} e.

Definition bind {A B} (r : result A) (k : A -> result B) : result B :=
  match r with
  | Ok a => k a
  | Throw e => Throw e
  end.

(** ToBoolean *)
Definition ToBoolean (v : value) : bool :=
  match v with
  | JSundefined | JSnull | JSNaN => false
  | JSbool b => b
  | JSnum z => negb (z =? 0)
  | JSinfinity _ => true
  | JSfraction q => negb (Qnum q =? 0)
  end.

(** [a || b] *)
Definition or_else (a b : value) : value := if ToBoolean a then a else b.

(** ToNumber *)
Definition ToNumber (v : value) : number :=
  match v with
  | JSundefined | JSNaN => NotANumber
  | JSnull => Finite (inject_Z 0)
  | JSbool b => Finite (inject_Z (if b then 1 else 0))
  | JSnum z => Finite (inject_Z z)
  | JSinfinity negative => Infinite negative
  | JSfraction q => Finite q
  end.

(** The integer part of a finite number: the fraction is dropped,
    towards zero. *)
Definition truncate (q : Q) : Z := Z.quot (Qnum q) (Z.pos (Qden q)).

(** ToUint8, ToUint16, ToUint32 on an already converted number: NaN and
    the infinities give 0, a finite number its integer part reduced to
    the width. *)
Definition wrap (bits : Z) (n : number) : Z :=
  match n with
  | Finite q => truncate q mod 2 ^ bits
  | NotANumber | Infinite _ => 0
  end.

Definition ToUint32 (z : Z) : Z := z mod 2 ^ 32.
Definition ToInt32 (z : Z) : Z := (z + 2 ^ 31) mod 2 ^ 32 - 2 ^ 31.

(** The bitwise operators on Numbers: both operands go through ToInt32
    ([>>>] through ToUint32) and the result is an Int32 (a Uint32 for
    [>>>]). *)
Definition bitand (a b : Z) : Z := ToInt32 (Z.land (ToInt32 a) (ToInt32 b)).
Definition bitxor (a b : Z) : Z := ToInt32 (Z.lxor (ToInt32 a) (ToInt32 b)).
Definition ushr (a n : Z) : Z := Z.shiftr (ToUint32 a) (n mod 32).

End JS.

Import JS.

(* ===================================================================== *)
(** ** ArrayBuffer, DataView and Uint8Array *)
(* ===================================================================== *)

Definition ArrayBuffer : Type := list byte.

(** [new ArrayBuffer(n)]: n zero bytes. *)
Definition new_ArrayBuffer (n : nat) : ArrayBuffer := repeat Byte.x00 n.

Definition byteLength (b : ArrayBuffer) : Z := Z.of_nat (length b).

(** The [n] low-order bytes of [z], most significant first. *)
Fixpoint be_bytes (n : nat) (z : Z) : list byte :=
  match n with
  | O => []
  | S m => byte.of_Z (Z.shiftr z (8 * Z.of_nat m)) :: be_bytes m z
  end.

(** The unsigned number held by a byte string read most significant byte
    first. *)
Definition be_value (bs : list byte) : Z :=
  fold_left (fun acc b => acc * 256 + byte.unsigned b) bs 0.

(** [Uint8Array.prototype.set(src, off)] on a view of the whole buffer.
    The write is in range at every call site of the script (constant
    offsets into buffers of constant size, or offsets summed from the
    very lengths that sized the buffer); out of range JavaScript raises a
    RangeError, which the model renders by leaving the buffer as it is. *)
Definition set8 (buf : ArrayBuffer) (src : list byte) (off : nat) : ArrayBuffer :=
  if (off + length src <=? length buf)%nat
  then firstn off buf ++ src ++ skipn (off + length src) buf
  else buf.

(** DataView setters (big-endian, the default of [setUint16] and
    [setUint32]). *)
Definition setUint8 (buf : ArrayBuffer) (off : nat) (v : value) : ArrayBuffer :=
  set8 buf (be_bytes 1 (wrap 8 (ToNumber v))) off.
Definition setUint16 (buf : ArrayBuffer) (off : nat) (v : value) : ArrayBuffer :=
  set8 buf (be_bytes 2 (wrap 16 (ToNumber v))) off.
Definition setUint32 (buf : ArrayBuffer) (off : nat) (v : value) : ArrayBuffer :=
  set8 buf (be_bytes 4 (wrap 32 (ToNumber v))) off.

(** [new Uint8Array(ab, off, len)]: a RangeError when the window leaves
    the buffer. *)
Definition Uint8Array_view (ab : ArrayBuffer) (off len : Z) : result (list byte) :=
  if (0 <=? off) && (0 <=? len) && (off + len <=? byteLength ab)
  then Ok (firstn (Z.to_nat len) (skipn (Z.to_nat off) ab))
  else Throw RangeError.

(** [DataView.prototype.getUint32(off)] *)
Definition getUint32 (ab : ArrayBuffer) (off : Z) : result Z :=
  bind (Uint8Array_view ab off 4) (fun bs => Ok (be_value bs)).

(** [String.prototype.charCodeAt(k)]: NaN past the end of the string. *)
Definition charCodeAt (s : string) (k : nat) : value :=
  match String.get k s with
  | Some c => JSnum (Z.of_N (N_of_ascii c))
  | None => JSNaN
  end.

(** [String.fromCharCode(...bytes)] *)
Definition fromCharCode (bs : list byte) : string := string_of_list_byte bs.

(* ===================================================================== *)
(** ** crc32 *)
(* ===================================================================== *)

(** One turn of the inner loop:
    [tmp = tmp & 1 ? 3988292384 ^ tmp >>> 1 : tmp >>> 1]. *)
Definition crc_table_turn (tmp : Z) : Z :=
  if negb (JS.bitand tmp 1 =? 0)
  then JS.bitxor 3988292384 (JS.ushr tmp 1)
  else JS.ushr tmp 1.

(** The value stored at [table[i]]: eight turns from [i], stored in a
    Uint32Array. *)
Definition crc_table_entry (i : Z) : Z :=
  ToUint32 (Nat.iter 8 crc_table_turn i).

(** Array store by index, for an index inside the array. *)
Fixpoint store {A} (l : list A) (i : nat) (x : A) : list A :=
  match l, i with
  | [], _ => []
  | _ :: t, O => x :: t
  | h :: t, S j => h :: store t j x
  end.

(** [for (var i = 256; i--;) { ...; table[i] = tmp }] on a fresh
    [Uint32Array(256)]. *)
Definition crc_table : list Z :=
  fold_left (fun table i => store table i (crc_table_entry (Z.of_nat i)))
            (rev (seq 0 256)) (repeat 0 256).

(** [table[k]]; an index outside the table reads [undefined], which the
    enclosing [^] turns into 0. *)
Definition table_get (table : list Z) (k : Z) : Z :=
  if k <? 0 then 0 else nth (Z.to_nat k) table 0.

(** One turn of the loop over the data:
    [crc = crc >>> 8 ^ table[crc & 255 ^ data[i]]]. *)
Definition crc_turn (table : list Z) (crc : Z) (d : byte) : Z :=
  JS.bitxor (JS.ushr crc 8)
         (table_get table (JS.bitxor (JS.bitand crc 255) (byte.unsigned d))).

Definition crc32_with (table : list Z) (ab : ArrayBuffer) : Z :=
  let crc := fold_left (crc_turn table) ab (-1) in
  JS.ushr (JS.bitxor crc (-1)) 0.

(** The table is evaluated once, as the enclosing function expression of
    the script does. *)
Definition crc_table_value : list Z := Eval vm_compute in crc_table.

Definition crc32 (ab : ArrayBuffer) : Z := crc32_with crc_table_value ab.

(* ===================================================================== *)
(** ** joinBuffers *)
(* ===================================================================== *)

Definition joinBuffers (buffers : list ArrayBuffer) : ArrayBuffer :=
  let l := fold_left (fun a b => (a + length b)%nat) buffers 0%nat in
  let out := new_ArrayBuffer l in
  fst (fold_left
         (fun '(out8, offset) b => (set8 out8 b offset, (offset + length b)%nat))
         buffers (out, 0%nat)).

(* ===================================================================== *)
(** ** lookForIDAT *)
(* ===================================================================== *)

(** The [while (!end)] loop.  [fuel] bounds the number of turns; a turn
    that does not leave the loop moves [offset] forward by at least 12
    inside the buffer, so [S (length ab)] turns are always enough
    (lemma [lookForIDAT_loop_fuel] below). *)
Fixpoint lookForIDAT_loop (fuel : nat) (ab : ArrayBuffer) (offset : Z)
         (IDATs : list ArrayBuffer) : option (result (list ArrayBuffer)) :=
  match fuel with
  | O => None
  | S fuel' =>
      match Uint8Array_view ab offset 4 with
      | Throw e => Some (Throw e)
      | Ok chunktype =>
          let chunktype := fromCharCode chunktype in
          if String.eqb chunktype "IDAT" then
            match getUint32 ab (offset - 4) with
            | Throw e => Some (Throw e)
            | Ok l =>
                let idat_buf := new_ArrayBuffer (Z.to_nat l) in
                match Uint8Array_view ab (offset + 4) l with
                | Throw e => Some (Throw e)
                | Ok src =>
                    let idat_buf := set8 idat_buf src 0 in
                    lookForIDAT_loop fuel' ab (offset + (l + 12))
                                     (IDATs ++ [idat_buf])
                end
            end
          else if String.eqb chunktype "IEND" then Some (Ok IDATs)
          else
            (* throw("oups... unexpected chunk type found : ", chunktype):
               the operand is a comma expression, whose value is its last
               member. *)
            Some (Throw (Thrown chunktype))
      end
  end.

(** The last branch is never taken (lemma [lookForIDAT_returns]). *)
Definition lookForIDAT (ab : ArrayBuffer) : result (list ArrayBuffer) :=
  match lookForIDAT_loop (S (length ab)) ab 37 [] with
  | Some r => r
  | None => Throw RangeError
  end.

(* ===================================================================== *)
(** ** The APNGmaker class *)
(* ===================================================================== *)

(** What the script uses of a canvas: its size, and the buffer of the
    blob that [toBlob(..., "image/png")] hands to its callback ([None]
    when the callback receives [null]). *)
Record HTMLCanvasElement : Type := {
  can_width : Z;
  can_height : Z;
  can_toBlob : option ArrayBuffer
}.

(** [new Blob(parts, {type})] *)
Record Blob : Type := {
  blob_bytes : list byte;
  blob_type : string
}.

Definition new_Blob (parts : list ArrayBuffer) (type : string) : Blob :=
  {| blob_bytes := concat parts; blob_type := type |}.

(** A JavaScript array that may have holes. [array_set] is [arr[i] = v]:
    past the end the array grows and the skipped indices stay empty. *)
Definition array_set {A} (arr : list (option A)) (i : nat) (v : A) : list (option A) :=
  if (i <? length arr)%nat
  then store arr i (Some v)
  else arr ++ repeat None (i - length arr) ++ [Some v].

(** [arr.forEach((x, i) => ...)] threading the state the callback
    mutates; holes are skipped. *)
Definition forEach {A S} (arr : list (option A)) (f : S -> A -> nat -> S) (s : S) : S :=
  fst (fold_left
         (fun '(s, i) x =>
            (match x with Some a => f s a i | None => s end, Datatypes.S i))
         arr (s, 0%nat)).

Module APNGmaker.

(** The fields of [this]. *)
Record this : Type := {
  width : Z;
  height : Z;
  FPS : value;
  numplays : value;
  signature : ArrayBuffer;
  IHDR : ArrayBuffer;
  iEND : ArrayBuffer;
  frames : list ArrayBuffer;
  images : list (option (list ArrayBuffer))
}.

Definition set_images (self : this) (imgs : list (option (list ArrayBuffer))) : this :=
  {| width := width self; height := height self; FPS := FPS self;
     numplays := numplays self; signature := signature self;
     IHDR := IHDR self; iEND := iEND self; frames := frames self;
     images := imgs |}.

Definition buildChunk (type : string) (data : ArrayBuffer) : ArrayBuffer :=
  let length := new_ArrayBuffer 4 in
  let length := setUint32 length 0 (JSnum (byteLength data)) in
  let t := new_ArrayBuffer 4 in
  let t := setUint8 t 0 (charCodeAt type 0) in
  let t := setUint8 t 1 (charCodeAt type 1) in
  let t := setUint8 t 2 (charCodeAt type 2) in
  let t := setUint8 t 3 (charCodeAt type 3) in
  let crc := new_ArrayBuffer 4 in
  let crc := setUint32 crc 0 (JSnum (crc32 (joinBuffers [t; data]))) in
  joinBuffers [length; t; data; crc].

(** The part of [add] that runs once the canvas has been encoded.  The
    message on the console and the [imageEncoded] event leave no trace in
    the object and are left out. *)
Definition add (self : this) (i : nat) (can : HTMLCanvasElement) : result this :=
  match can_toBlob can with
  | None => Throw TypeError
  | Some buffer =>
      bind (lookForIDAT buffer) (fun IDATes =>
      Ok (set_images self (array_set (images self) i IDATes)))
  end.

(** The callback of [this.images.forEach] in [build]; its state is the
    counter [seq] and [this.frames]. *)
Definition build_frame (self : this) (st : Z * list ArrayBuffer)
           (data : list ArrayBuffer) (i : nat) : Z * list ArrayBuffer :=
  let '(seq, frames) := st in
  let fcTL := new_ArrayBuffer 26 in
  let fcTL := setUint32 fcTL 0 (JSnum seq) in
  let seq := seq + 1 in
  let fcTL := setUint32 fcTL 4 (JSnum (width self)) in
  let fcTL := setUint32 fcTL 8 (JSnum (height self)) in
  let fcTL := setUint16 fcTL 20 (JSnum 1) in
  let fcTL := setUint16 fcTL 22 (FPS self) in
  let fcTL := setUint8 fcTL 24 (JSnum 0) in
  let fcTL := setUint8 fcTL 25 (JSnum 0) in
  if (i =? 0)%nat then
    let IDATchunks :=
      fold_left (fun chunks d => chunks ++ [buildChunk "IDAT" d]) data [] in
    (seq, frames ++ [joinBuffers (buildChunk "fcTL" fcTL :: IDATchunks)])
  else
    let '(seq, fdATChunks) :=
      fold_left
        (fun '(seq, chunks) d =>
           let sequence_number := new_ArrayBuffer 4 in
           let sequence_number := setUint32 sequence_number 0 (JSnum seq) in
           let seq := seq + 1 in
           let fdAT := joinBuffers [sequence_number; d] in
           (seq, chunks ++ [buildChunk "fdAT" fdAT]))
        data (seq, []) in
    (seq, frames ++ [joinBuffers (buildChunk "fcTL" fcTL :: fdATChunks)]).

Definition build (self : this) : Blob :=
  let seq := 0 in
  let acTLdata := new_ArrayBuffer 8 in
  let acTLdata := setUint32 acTLdata 0 (JSnum (Z.of_nat (length (images self)))) in
  let acTLdata := setUint32 acTLdata 4 (numplays self) in
  let acTL := buildChunk "acTL" acTLdata in
  let '(_, frames) := forEach (images self) (build_frame self) (seq, frames self) in
  new_Blob ([signature self; IHDR self; acTL] ++ frames ++ [iEND self]) "image/apng".

(** The synchronous part of the constructor, up to the two empty
    arrays.  Reading [images[0].width] of an empty array is a
    TypeError. *)
Definition init (imgs : list HTMLCanvasElement) (FPS numplays : value) : result this :=
  match imgs with
  | [] => Throw TypeError
  | im0 :: _ =>
      let signature := new_ArrayBuffer 8 in
      let signature :=
        set8 signature
             (map byte.of_Z [0x89; 0x50; 0x4e; 0x47; 0x0d; 0x0a; 0x1a; 0x0a]) 0 in
      let IHDRdata := new_ArrayBuffer 13 in
      let IHDRdata := setUint32 IHDRdata 0 (JSnum (can_width im0)) in
      let IHDRdata := setUint32 IHDRdata 4 (JSnum (can_height im0)) in
      let IHDRdata := set8 IHDRdata (map byte.of_Z [8; 6; 0; 0; 0]) 8 in
      let iEND := new_ArrayBuffer 12 in
      let iEND :=
        set8 iEND
             (map byte.of_Z [0x00; 0x00; 0x00; 0x00; 0x49; 0x45; 0x4E; 0x44;
                             0xAE; 0x42; 0x60; 0x82]) 0 in
      Ok {| width := can_width im0;
            height := can_height im0;
            FPS := JS.or_else FPS (JSnum 30);
            numplays := JS.or_else numplays (JSnum 0);
            signature := signature;
            IHDR := buildChunk "IHDR" IHDRdata;
            iEND := iEND;
            frames := [];
            images := [] |}
  end.

(** What the finishing of the call [this.add(i, images[i])] does with
    the object, unless an earlier call has thrown. *)
Definition add_step (imgs : list HTMLCanvasElement)
           (acc : result this) (i : nat) : result this :=
  bind acc (fun self =>
  match nth_error imgs i with
  | Some can => add self i can
  | None => Ok self
  end).

(** The constructor and the promise it returns.  The [add] calls are
    started in index order and finish in any order; [sched] lists the
    indices in the order in which the calls finish.  [Promise.all]
    rejects with the first call that throws, and [build] runs only
    when every call has finished. *)
Definition constructor (sched : list nat) (imgs : list HTMLCanvasElement)
           (FPS numplays : value) : result Blob :=
  bind (init imgs FPS numplays) (fun self =>
  bind (fold_left (add_step imgs) sched (Ok self)) (fun self =>
  Ok (build self))).

End APNGmaker.

(* ===================================================================== *)
(** ** The container format, as the specification words it

    These definitions are not taken from the script: they describe the
    byte layout the specification promises, and a decoder for it.  The
    theorems compare the functions above with them. *)
(* ===================================================================== *)

Definition bytes_of_string (s : string) : list byte := list_byte_of_string s.

(** A chunk, decoded: its type tag and its payload. *)
Definition chunk : Type := (string * list byte)%type.

(** A decoder for a run of chunks [len(4,BE) | tag(4) | data(len) |
    crc32(4,BE)] that fills the whole input; a chunk is accepted only
    when its checksum is the CRC-32 of [tag | data]. *)
Fixpoint parse_chunks (fuel : nat) (bs : list byte) : option (list chunk) :=
  match bs with
  | [] => Some []
  | _ :: _ =>
      match fuel with
      | O => None
      | S fuel' =>
          let len := Z.to_nat (be_value (firstn 4 bs)) in
          let tag := firstn 4 (skipn 4 bs) in
          let data := firstn len (skipn 8 bs) in
          let crc := firstn 4 (skipn (8 + len) bs) in
          if ((12 + len <=? length bs)%nat
              && (be_value crc =? crc32 (tag ++ data)))%bool
          then option_map (cons (fromCharCode tag, data))
                          (parse_chunks fuel' (skipn (12 + len) bs))
          else None
      end
  end.

Definition decode_chunks (bs : list byte) : option (list chunk) :=
  parse_chunks (length bs) bs.

Definition has_tag (tag : string) (c : chunk) : bool := String.eqb (fst c) tag.

Definition count_tag (tag : string) (cs : list chunk) : nat :=
  length (filter (has_tag tag) cs).

(** The sequence number a chunk carries: the first four bytes of the
    payload of an [fcTL] or [fdAT] chunk; other chunks carry none. *)
Definition sequence_number (c : chunk) : option Z :=
  if (has_tag "fcTL" c || has_tag "fdAT" c)%bool
  then Some (be_value (firstn 4 (snd c)))
  else None.

Fixpoint sequence_numbers (cs : list chunk) : list Z :=
  match cs with
  | [] => []
  | c :: cs' =>
      match sequence_number c with
      | Some n => n :: sequence_numbers cs'
      | None => sequence_numbers cs'
      end
  end.

(** The two 16-bit delay fields of an [fcTL] payload. *)
Definition delay_num (c : chunk) : Z := be_value (firstn 2 (skipn 20 (snd c))).
Definition delay_den (c : chunk) : Z := be_value (firstn 2 (skipn 22 (snd c))).

(** The eight signature bytes 89 50 4E 47 0D 0A 1A 0A. *)
Definition PNG_signature : list byte :=
  map byte.of_Z [0x89; 0x50; 0x4E; 0x47; 0x0D; 0x0A; 0x1A; 0x0A].

(** The payloads of the chunks of an animation *)
Definition IHDR_data (w h : Z) : list byte :=
  be_bytes 4 w ++ be_bytes 4 h ++ map byte.of_Z [8; 6; 0; 0; 0].

Definition acTL_data (num_frames num_plays : Z) : list byte :=
  be_bytes 4 num_frames ++ be_bytes 4 num_plays.

Definition fcTL_data (sn w h delay_den : Z) : list byte :=
  be_bytes 4 sn ++ be_bytes 4 w ++ be_bytes 4 h
  ++ be_bytes 4 0 ++ be_bytes 4 0                  (* x_offset, y_offset *)
  ++ be_bytes 2 1 ++ be_bytes 2 delay_den          (* delay_num, delay_den *)
  ++ map byte.of_Z [0; 0].                         (* dispose_op, blend_op *)

(** The data chunks of the first frame: one [IDAT] per block, the block
    as it is. *)
Definition IDAT_chunks (data : list ArrayBuffer) : list chunk :=
  map (fun d => ("IDAT"%string, d)) data.

(** The data chunks of a later frame: one [fdAT] per block, the block
    after the next sequence number, counted from [sn]. *)
Fixpoint fdAT_chunks (sn : Z) (data : list ArrayBuffer) : list chunk :=
  match data with
  | [] => []
  | d :: data' => ("fdAT"%string, be_bytes 4 sn ++ d) :: fdAT_chunks (sn + 1) data'
  end.

(** The chunks of the frames from a given position on: [first] tells
    whether the head of the list is frame 0, [sn] is the next sequence
    number. *)
Fixpoint frame_chunks (w h den : Z) (first : bool) (sn : Z)
         (payloads : list (list ArrayBuffer)) : list (list chunk) :=
  match payloads with
  | [] => []
  | data :: rest =>
      if first
      then (("fcTL"%string, fcTL_data sn w h den) :: IDAT_chunks data)
             :: frame_chunks w h den false (sn + 1) rest
      else (("fcTL"%string, fcTL_data sn w h den) :: fdAT_chunks (sn + 1) data)
             :: frame_chunks w h den false (sn + 1 + Z.of_nat (length data)) rest
  end.

(** The chunk sequence of a whole animation. *)
Definition animation_chunks (w h den plays : Z)
           (payloads : list (list ArrayBuffer)) : list chunk :=
  [("IHDR"%string, IHDR_data w h);
   ("acTL"%string, acTL_data (Z.of_nat (length payloads)) plays)]
  ++ concat (frame_chunks w h den true 0 payloads)
  ++ [("IEND"%string, [])].

(** Chunks written out one after the other by [buildChunk]. *)
Definition serialize (cs : list chunk) : list byte :=
  concat (map (fun c => APNGmaker.buildChunk (fst c) (snd c)) cs).

(** What [add] gets from one canvas. *)
Definition extract (can : HTMLCanvasElement) : result (list ArrayBuffer) :=
  match can_toBlob can with
  | None => Throw TypeError
  | Some buffer => lookForIDAT buffer
  end.

(** The payload lists of all the canvases, in index order, when every
    canvas yields one. *)
Fixpoint extract_all (imgs : list HTMLCanvasElement) : option (list (list ArrayBuffer)) :=
  match imgs with
  | [] => Some []
  | can :: rest =>
      match extract can, extract_all rest with
      | Ok p, Some ps => Some (p :: ps)
      | _, _ => None
      end
  end.

(** A single-still-image buffer: the 33 bytes of signature and header
    chunk, then the data blocks as [IDAT] chunks, then [IEND]. *)
Definition still_image (header : list byte) (blocks : list ArrayBuffer) : ArrayBuffer :=
  header ++ serialize (IDAT_chunks blocks) ++ APNGmaker.buildChunk "IEND" [].

(** CRC-32/ISO-HDLC, bit by bit: the register is shifted right once per
    bit and the reflected polynomial 0xEDB88320 is added whenever a 1
    falls out; the register starts as all-ones and is inverted at the
    end. *)
Definition crc_bit (r : Z) : Z :=
  if Z.testbit r 0 then Z.lxor (Z.shiftr r 1) 0xEDB88320 else Z.shiftr r 1.

Definition crc_byte (r : Z) (d : byte) : Z :=
  Nat.iter 8 crc_bit (Z.lxor r (byte.unsigned d)).

Definition crc32_iso_hdlc (data : list byte) : Z :=
  Z.lxor (fold_left crc_byte data 0xFFFFFFFF) 0xFFFFFFFF.

(* ===================================================================== *)
(** ** Auxiliary notions of the statements *)
(* ===================================================================== *)

(** The byte [buildChunk] writes for character [k] of a type. *)
Definition tag_byte (type : string) (k : nat) : byte :=
  byte.of_Z (wrap 8 (ToNumber (charCodeAt type k))).

(** Every chunk has a type of four characters and a payload whose length
    fits the length field. *)
Definition chunk_fits (c : chunk) : Prop :=
  String.length (fst c) = 4%nat /\ byteLength (snd c) < 2 ^ 32.

(** Every payload in the array is the one extracted from the canvas of
    its index. *)
Definition sound (imgs : list HTMLCanvasElement)
           (arr : list (option (list ArrayBuffer))) : Prop :=
  forall j x, nth_error arr j = Some (Some x) ->
              exists can, nth_error imgs j = Some can /\ extract can = Ok x.

(** The delay denominator and the play count that reach the stream. *)
Definition delay_denominator (FPS : value) : Z :=
  wrap 16 (ToNumber (JS.or_else FPS (JSnum 30))).

Definition play_count (numplays : value) : Z :=
  wrap 32 (ToNumber (JS.or_else numplays (JSnum 0))).

(** The numbers [from], [from + 1], ..., [n] of them. *)
Definition Z_range (from : Z) (n : nat) : list Z :=
  map (fun k => from + Z.of_nat k) (seq 0 n).

(** Later frames' blocks leave room for the four bytes of the sequence
    number. *)
Definition fdAT_fit (ps : list (list ArrayBuffer)) : Prop :=
  Forall (Forall (fun d => byteLength d + 4 < 2 ^ 32)) ps.

(** The blocks of the first frame fit the length field of a chunk. *)
Definition IDAT_fit (p : list ArrayBuffer) : Prop :=
  Forall (fun d => byteLength d < 2 ^ 32) p.

(** Two canvases of 4 by 4 pixels; the first encodes to one data block,
    the second to two. *)
Definition demo_header : list byte :=
  PNG_signature ++ APNGmaker.buildChunk "IHDR" (IHDR_data 4 4).

Definition demo_canvas (blocks : list ArrayBuffer) : HTMLCanvasElement :=
  {| can_width := 4; can_height := 4;
     can_toBlob := Some (still_image demo_header blocks) |}.

Definition demo_payloads : list (list ArrayBuffer) :=
  [[bytes_of_string "red"]; [bytes_of_string "gre"; bytes_of_string "en"]].

Definition demo_images : list HTMLCanvasElement := map demo_canvas demo_payloads.

Definition demo_blob : Blob :=
  Eval vm_compute in
    match APNGmaker.constructor [1; 0]%nat demo_images (JSnum 60) (JSnum 1) with
    | Ok blob => blob
    | Throw _ => new_Blob [] ""
    end.

(** A canvas whose encoding has a chunk of type XXXX before its end
    marker. *)
Definition demo_bad_canvas : HTMLCanvasElement :=
  {| can_width := 4; can_height := 4;
     can_toBlob :=
       Some (demo_header ++ serialize (IDAT_chunks [bytes_of_string "red"])
                         ++ APNGmaker.buildChunk "XXXX" []
                         ++ APNGmaker.buildChunk "IEND" []) |}.

(** The object the constructor has set up for canvases of 4 by 4 pixels,
    before any payload is added. *)
Definition demo_empty_object : APNGmaker.this :=
  {| APNGmaker.width := 4; APNGmaker.height := 4;
     APNGmaker.FPS := JSnum 30; APNGmaker.numplays := JSnum 0;
     APNGmaker.signature := PNG_signature;
     APNGmaker.IHDR := APNGmaker.buildChunk "IHDR" (IHDR_data 4 4);
     APNGmaker.iEND := APNGmaker.buildChunk "IEND" [];
     APNGmaker.frames := []; APNGmaker.images := [] |}.

(** An object that holds one payload and, in [this.frames], a segment
    from before. *)
Definition demo_used_object : APNGmaker.this :=
  {| APNGmaker.width := 4; APNGmaker.height := 4;
     APNGmaker.FPS := JSnum 30; APNGmaker.numplays := JSnum 0;
     APNGmaker.signature := PNG_signature;
     APNGmaker.IHDR := APNGmaker.buildChunk "IHDR" (IHDR_data 4 4);
     APNGmaker.iEND := APNGmaker.buildChunk "IEND" [];
     APNGmaker.frames := [bytes_of_string "earlier"];
     APNGmaker.images := map Some [[bytes_of_string "red"]] |}.

(** A chunk as it lies in a buffer, with whatever four bytes in the
    place of the checksum. *)
Definition raw_chunk (type : string) (data check : list byte) : list byte :=
  be_bytes 4 (byteLength data) ++ bytes_of_string type ++ data ++ check.

(** The unsigned number of [n] bytes at offset [off] of a payload. *)
Definition field (n off : nat) (payload : list byte) : Z :=
  be_value (firstn n (skipn off payload)).

(* ===================================================================== *)
(** ** Bytes and buffers *)
(* ===================================================================== *)

(** A DataView setter writes an integer reduced to the width of the
    field. *)
Lemma wrap_num bits z : wrap bits (ToNumber (JSnum z)) = z mod 2 ^ bits.
Proof.
  cbn [ToNumber wrap]. unfold truncate, inject_Z. cbn [Qnum Qden].
  now rewrite Z.quot_1_r.
Qed.

Lemma be_bytes_length n z : length (be_bytes n z) = n.
Proof. induction n; simpl; congruence. Qed.

Lemma new_ArrayBuffer_length n : length (new_ArrayBuffer n) = n.
Proof. apply repeat_length. Qed.

(** Writing [n] bytes at the start of a fresh buffer of [n] bytes. *)
Lemma set8_fresh src : set8 (new_ArrayBuffer (length src)) src 0 = src.
Proof.
  unfold set8. rewrite new_ArrayBuffer_length. simpl.
  rewrite Nat.leb_refl.
  rewrite skipn_all2 by (rewrite new_ArrayBuffer_length; lia).
  apply app_nil_r.
Qed.

Lemma setUint32_fresh v :
  setUint32 (new_ArrayBuffer 4) 0 v = be_bytes 4 (wrap 32 (ToNumber v)).
Proof. apply (set8_fresh (be_bytes 4 _)). Qed.

(** Writing in the middle of a buffer whose tail is still fresh. *)
Lemma set8_append acc src n :
  set8 (acc ++ new_ArrayBuffer (length src + n)) src (length acc)
  = (acc ++ src) ++ new_ArrayBuffer n.
Proof.
  unfold set8. rewrite length_app, new_ArrayBuffer_length.
  replace (length acc + length src <=? length acc + (length src + n))%nat with true
    by (symmetry; apply Nat.leb_le; lia).
  rewrite firstn_app, firstn_all, Nat.sub_diag. simpl. rewrite app_nil_r.
  rewrite skipn_app, skipn_all2 by lia. simpl.
  replace (length acc + length src - length acc)%nat with (length src) by lia.
  unfold new_ArrayBuffer.
  rewrite repeat_app, skipn_app, skipn_all2 by (rewrite repeat_length; lia).
  rewrite repeat_length, Nat.sub_diag. simpl.
  now rewrite <- app_assoc.
Qed.

Lemma joinBuffers_total_length (buffers : list ArrayBuffer) a :
  fold_left (fun a b => (a + length b)%nat) buffers a
  = (a + length (concat buffers))%nat.
Proof.
  revert a. induction buffers as [|b bs IH]; intros a; simpl.
  - lia.
  - rewrite IH, length_app. lia.
Qed.

Lemma joinBuffers_loop (buffers : list ArrayBuffer) : forall acc,
  fst (fold_left
         (fun '(out8, offset) b => (set8 out8 b offset, (offset + length b)%nat))
         buffers (acc ++ new_ArrayBuffer (length (concat buffers)), length acc))
  = acc ++ concat buffers.
Proof.
  induction buffers as [|b bs IH]; intros acc; simpl.
  - reflexivity.
  - rewrite length_app, set8_append.
    replace (length acc + length b)%nat with (length (acc ++ b))
      by (rewrite length_app; reflexivity).
    rewrite IH. now rewrite <- app_assoc.
Qed.

(** [joinBuffers] is concatenation. *)
Lemma joinBuffers_concat buffers : joinBuffers buffers = concat buffers.
Proof.
  unfold joinBuffers. rewrite joinBuffers_total_length. simpl.
  apply (joinBuffers_loop buffers []).
Qed.

(** *** Big-endian numbers *)

Lemma be_value_from (bs : list byte) : forall acc,
  fold_left (fun acc b => acc * 256 + byte.unsigned b) bs acc
  = acc * 256 ^ Z.of_nat (length bs) + be_value bs.
Proof.
  unfold be_value.
  induction bs as [|b bs IH]; intros acc.
  - simpl. lia.
  - cbn [fold_left length].
    rewrite IH, (IH (0 * 256 + byte.unsigned b)).
    rewrite Nat2Z.inj_succ, Z.pow_succ_r by lia. ring.
Qed.

Lemma be_value_cons b bs :
  be_value (b :: bs) = byte.unsigned b * 256 ^ Z.of_nat (length bs) + be_value bs.
Proof.
  unfold be_value at 1. cbn [fold_left]. rewrite be_value_from. ring.
Qed.

Lemma be_value_range bs : 0 <= be_value bs < 256 ^ Z.of_nat (length bs).
Proof.
  induction bs as [|b bs IH].
  - cbv. split; congruence.
  - rewrite be_value_cons. cbn [length].
    rewrite Nat2Z.inj_succ, Z.pow_succ_r by lia.
    pose proof (byte.unsigned_range b) as Hb. change (2 ^ 8) with 256 in Hb.
    nia.
Qed.

(** Reading back the bytes of a number gives the number, reduced to the
    width of the field. *)
Lemma be_value_be_bytes n z : be_value (be_bytes n z) = z mod 256 ^ Z.of_nat n.
Proof.
  induction n as [|m IH].
  - simpl. now rewrite Z.mod_1_r.
  - cbn [be_bytes]. rewrite be_value_cons, be_bytes_length, IH.
    rewrite byte.unsigned_of_Z. unfold byte.wrap.
    rewrite Z.shiftr_div_pow2 by lia.
    rewrite Nat2Z.inj_succ, Z.pow_succ_r by lia.
    rewrite Z.pow_mul_r by lia. change (2 ^ 8) with 256.
    rewrite (Z.mul_comm 256), Z.rem_mul_r by lia. ring.
Qed.

Lemma be_value_be_bytes_small n z :
  0 <= z < 256 ^ Z.of_nat n -> be_value (be_bytes n z) = z.
Proof. intros H. rewrite be_value_be_bytes. now apply Z.mod_small. Qed.

(** A field holds its number reduced to the width, whether reduced before
    or not. *)
Lemma be_bytes_mod n z : be_bytes n (z mod 256 ^ Z.of_nat n) = be_bytes n z.
Proof.
  assert (H : forall k, (k <= n)%nat ->
            be_bytes k (z mod 256 ^ Z.of_nat n) = be_bytes k z).
  { induction k as [|k IH]; intros Hk; [reflexivity|].
    cbn [be_bytes]. rewrite IH by lia. f_equal.
    apply byte.unsigned_inj. rewrite !byte.unsigned_of_Z. unfold byte.wrap.
    replace 256 with (2 ^ 8) by reflexivity.
    rewrite <- Z.pow_mul_r by lia.
    rewrite <- !Z.land_ones by lia.
    apply Z.bits_inj'. intros i Hi.
    rewrite !Z.land_spec, !Z.shiftr_spec, Z.land_spec by lia.
    destruct (Z.ltb_spec i 8).
    - rewrite (Z.ones_spec_low (8 * Z.of_nat n)) by lia.
      now rewrite andb_true_r.
    - rewrite (Z.ones_spec_high 8) by lia. now rewrite !andb_false_r. }
  now apply H.
Qed.

(** *** Type tags *)

Lemma byte_of_char_code a : byte.of_Z (Z.of_N (N_of_ascii a)) = byte_of_ascii a.
Proof.
  apply byte.unsigned_inj. rewrite byte.unsigned_of_Z.
  unfold byte.wrap, byte.unsigned.
  pose proof (byte_of_ascii_via_N a) as H. symmetry in H.
  apply Byte.to_of_N in H. rewrite H.
  apply Z.mod_small. pose proof (N_ascii_bounded a). change (2 ^ 8) with 256. lia.
Qed.

Lemma byte_of_Z_mod z : byte.of_Z (z mod 2 ^ 8) = byte.of_Z z.
Proof.
  apply byte.unsigned_inj. rewrite !byte.unsigned_of_Z. unfold byte.wrap.
  apply Z.mod_mod. discriminate.
Qed.

(** The four bytes written for a type of four characters are the
    characters. *)
Lemma tag_bytes_of_string type :
  String.length type = 4%nat ->
  [tag_byte type 0; tag_byte type 1; tag_byte type 2; tag_byte type 3]
  = bytes_of_string type.
Proof.
  destruct type as [|a [|b [|c [|d [|e t]]]]]; try discriminate. intros _.
  unfold tag_byte, charCodeAt. cbn [String.get].
  rewrite !wrap_num, !byte_of_Z_mod, !byte_of_char_code. reflexivity.
Qed.

(** *** buildChunk *)

Lemma buildChunk_eq type data :
  APNGmaker.buildChunk type data
  = be_bytes 4 (byteLength data)
    ++ [tag_byte type 0; tag_byte type 1; tag_byte type 2; tag_byte type 3]
    ++ data
    ++ be_bytes 4 (crc32 ([tag_byte type 0; tag_byte type 1; tag_byte type 2;
                           tag_byte type 3] ++ data)).
Proof.
  unfold APNGmaker.buildChunk.
  rewrite !joinBuffers_concat, !setUint32_fresh.
  rewrite !wrap_num. change (2 ^ 32) with (256 ^ Z.of_nat 4).
  rewrite !be_bytes_mod.
  cbn [concat]. rewrite !app_nil_r. reflexivity.
Qed.

Lemma buildChunk_tagged type data :
  String.length type = 4%nat ->
  APNGmaker.buildChunk type data
  = be_bytes 4 (byteLength data) ++ bytes_of_string type ++ data
    ++ be_bytes 4 (crc32 (bytes_of_string type ++ data)).
Proof.
  intros H. rewrite buildChunk_eq, tag_bytes_of_string by assumption. reflexivity.
Qed.

Lemma buildChunk_length type data :
  length (APNGmaker.buildChunk type data) = (12 + length data)%nat.
Proof.
  rewrite buildChunk_eq. rewrite !length_app, !be_bytes_length. simpl. lia.
Qed.

(** *** Decoding what [buildChunk] wrote *)

Lemma firstn_exact {A} (a b : list A) n : length a = n -> firstn n (a ++ b) = a.
Proof.
  intros <-. rewrite firstn_app, firstn_all, Nat.sub_diag. simpl. apply app_nil_r.
Qed.

Lemma skipn_exact {A} (a b : list A) n : length a = n -> skipn n (a ++ b) = b.
Proof.
  intros <-. rewrite skipn_app, skipn_all, Nat.sub_diag. reflexivity.
Qed.

Lemma bytes_of_string_length s : length (bytes_of_string s) = String.length s.
Proof.
  unfold bytes_of_string, list_byte_of_string.
  rewrite length_map. induction s; simpl; congruence.
Qed.

Lemma fromCharCode_bytes s : fromCharCode (bytes_of_string s) = s.
Proof. apply string_of_list_byte_of_string. Qed.

Lemma crc32_range ab : 0 <= crc32 ab < 2 ^ 32.
Proof.
  unfold crc32, crc32_with, JS.ushr, ToUint32. rewrite Z.shiftr_0_r.
  apply Z.mod_pos_bound. reflexivity.
Qed.

Lemma parse_chunks_step fuel (bs : list byte) :
  bs <> [] ->
  parse_chunks (S fuel) bs
  = let len := Z.to_nat (be_value (firstn 4 bs)) in
    let tag := firstn 4 (skipn 4 bs) in
    let data := firstn len (skipn 8 bs) in
    let crc := firstn 4 (skipn (8 + len) bs) in
    if ((12 + len <=? length bs)%nat
        && (be_value crc =? crc32 (tag ++ data)))%bool
    then option_map (cons (fromCharCode tag, data))
                    (parse_chunks fuel (skipn (12 + len) bs))
    else None.
Proof. destruct bs; [congruence | reflexivity]. Qed.

(** The decoder reads back one chunk written by [buildChunk] and goes on
    with what follows it. *)
Lemma parse_chunks_buildChunk fuel type data rest :
  String.length type = 4%nat ->
  byteLength data < 2 ^ 32 ->
  parse_chunks (S fuel) (APNGmaker.buildChunk type data ++ rest)
  = option_map (cons (type, data)) (parse_chunks fuel rest).
Proof.
  intros Htype Hlen. unfold byteLength in Hlen.
  rewrite buildChunk_tagged by assumption.
  set (L := be_bytes 4 (byteLength data)).
  set (T := bytes_of_string type).
  set (C := be_bytes 4 (crc32 (T ++ data))).
  assert (HL : length L = 4%nat) by apply be_bytes_length.
  assert (HT : length T = 4%nat)
    by (unfold T; now rewrite bytes_of_string_length).
  assert (HC : length C = 4%nat) by apply be_bytes_length.
  rewrite parse_chunks_step.
  2:{ subst L. cbn [be_bytes]. discriminate. }
  cbv zeta.
  assert (E1 : firstn 4 ((L ++ T ++ data ++ C) ++ rest) = L).
  { rewrite <- !app_assoc. now apply firstn_exact. }
  rewrite E1.
  assert (E2 : Z.to_nat (be_value L) = length data).
  { unfold L, byteLength. rewrite be_value_be_bytes_small.
    - apply Nat2Z.id.
    - change (256 ^ Z.of_nat 4) with (2 ^ 32). lia. }
  rewrite E2.
  assert (E3 : skipn 4 ((L ++ T ++ data ++ C) ++ rest) = T ++ data ++ C ++ rest).
  { rewrite <- !app_assoc. now apply skipn_exact. }
  rewrite E3, (firstn_exact T) by assumption.
  assert (E4 : skipn 8 ((L ++ T ++ data ++ C) ++ rest) = data ++ C ++ rest).
  { replace ((L ++ T ++ data ++ C) ++ rest) with ((L ++ T) ++ data ++ C ++ rest)
      by now rewrite <- !app_assoc.
    apply skipn_exact. rewrite length_app. lia. }
  rewrite E4, (firstn_exact data) by reflexivity.
  assert (E5 : skipn (8 + length data) ((L ++ T ++ data ++ C) ++ rest) = C ++ rest).
  { replace ((L ++ T ++ data ++ C) ++ rest) with ((L ++ T ++ data) ++ C ++ rest)
      by now rewrite <- !app_assoc.
    apply skipn_exact. rewrite !length_app. lia. }
  rewrite E5, (firstn_exact C) by assumption.
  assert (E6 : skipn (12 + length data) ((L ++ T ++ data ++ C) ++ rest) = rest).
  { apply skipn_exact. rewrite !length_app. lia. }
  rewrite E6.
  assert (E7 : (12 + length data <=? length ((L ++ T ++ data ++ C) ++ rest))%nat = true).
  { apply Nat.leb_le. rewrite !length_app. lia. }
  rewrite E7.
  assert (E8 : (be_value C =? crc32 (T ++ data)) = true).
  { apply Z.eqb_eq. unfold C. apply be_value_be_bytes_small.
    change (256 ^ Z.of_nat 4) with (2 ^ 32). apply crc32_range. }
  rewrite E8. cbn [andb]. unfold T. now rewrite fromCharCode_bytes.
Qed.

Lemma serialize_cons c cs :
  serialize (c :: cs) = APNGmaker.buildChunk (fst c) (snd c) ++ serialize cs.
Proof. reflexivity. Qed.

Lemma serialize_app cs1 cs2 : serialize (cs1 ++ cs2) = serialize cs1 ++ serialize cs2.
Proof. unfold serialize. now rewrite map_app, concat_app. Qed.

Lemma serialize_length_ge cs : (length cs <= length (serialize cs))%nat.
Proof.
  induction cs as [|c cs IH]; [simpl; lia|].
  rewrite serialize_cons, length_app, buildChunk_length. simpl. lia.
Qed.

Lemma parse_chunks_serialize cs : forall fuel,
  Forall chunk_fits cs ->
  (length cs <= fuel)%nat ->
  parse_chunks fuel (serialize cs) = Some cs.
Proof.
  induction cs as [|c cs IH]; intros fuel Hfit Hfuel.
  - destruct fuel; reflexivity.
  - destruct fuel as [|fuel]; [simpl in Hfuel; lia|].
    inversion Hfit as [|? ? [Ht Hl] Hfit']; subst.
    rewrite serialize_cons, parse_chunks_buildChunk by assumption.
    rewrite IH by (assumption || (simpl in Hfuel; lia)).
    destruct c; reflexivity.
Qed.

Lemma decode_chunks_serialize cs :
  Forall chunk_fits cs -> decode_chunks (serialize cs) = Some cs.
Proof.
  intros H. apply parse_chunks_serialize; [assumption | apply serialize_length_ge].
Qed.

(** C2. For a type tag of four ASCII characters and a payload of at most
    2^32 - 1 bytes, the bytes returned by [buildChunk] are: the payload
    length in four bytes, big-endian; the four characters of the tag;
    the payload, unchanged; and the CRC-32 of tag and payload in four
    bytes, big-endian.  The decoder reads the chunk back as the pair of
    the tag and the payload. *)
Theorem buildChunk_roundtrip (type : string) (data : ArrayBuffer) :
  String.length type = 4%nat ->
  Forall (fun b => byte.unsigned b < 128) (bytes_of_string type) ->
  byteLength data <= 2 ^ 32 - 1 ->
  let c := APNGmaker.buildChunk type data in
  length c = (4 + 4 + length data + 4)%nat /\
  be_value (firstn 4 c) = byteLength data /\
  fromCharCode (firstn 4 (skipn 4 c)) = type /\
  firstn (length data) (skipn 8 c) = data /\
  be_value (skipn (8 + length data) c) = crc32 (bytes_of_string type ++ data) /\
  decode_chunks c = Some [(type, data)].
Proof.
  intros Htype _ Hlen c.
  assert (Hc : c = be_bytes 4 (byteLength data) ++ bytes_of_string type ++ data
                   ++ be_bytes 4 (crc32 (bytes_of_string type ++ data)))
    by (apply buildChunk_tagged; assumption).
  assert (HT : length (bytes_of_string type) = 4%nat)
    by now rewrite bytes_of_string_length.
  repeat split.
  - unfold c. rewrite buildChunk_length. lia.
  - rewrite Hc, firstn_exact by apply be_bytes_length.
    apply be_value_be_bytes_small. unfold byteLength in *.
    change (256 ^ Z.of_nat 4) with (2 ^ 32). lia.
  - rewrite Hc, skipn_exact by apply be_bytes_length.
    rewrite firstn_exact by assumption. apply fromCharCode_bytes.
  - rewrite Hc, app_assoc, skipn_exact
      by (rewrite length_app, be_bytes_length; lia).
    now apply firstn_exact.
  - rewrite Hc, !app_assoc, skipn_exact
      by (rewrite !length_app, be_bytes_length; lia).
    apply be_value_be_bytes_small.
    change (256 ^ Z.of_nat 4) with (2 ^ 32). apply crc32_range.
  - replace c with (serialize [(type, data)])
      by (unfold serialize; simpl; apply app_nil_r).
    apply decode_chunks_serialize. repeat constructor; simpl; [assumption|lia].
Qed.

Lemma buildChunk_roundtrip_witness :
  String.length "IDAT" = 4%nat /\
  byteLength (bytes_of_string "pixels") <= 2 ^ 32 - 1 /\
  let c := APNGmaker.buildChunk "IDAT" (bytes_of_string "pixels") in
  length c = (4 + 4 + length (bytes_of_string "pixels") + 4)%nat /\
  be_value (firstn 4 c) = byteLength (bytes_of_string "pixels") /\
  fromCharCode (firstn 4 (skipn 4 c)) = "IDAT"%string /\
  firstn (length (bytes_of_string "pixels")) (skipn 8 c) = bytes_of_string "pixels" /\
  be_value (skipn (8 + length (bytes_of_string "pixels")) c)
  = crc32 (bytes_of_string "IDAT" ++ bytes_of_string "pixels") /\
  decode_chunks c = Some [("IDAT"%string, bytes_of_string "pixels")].
Proof.
  split; [reflexivity|]. split; [vm_compute; discriminate|].
  apply (buildChunk_roundtrip "IDAT" (bytes_of_string "pixels")).
  - reflexivity.
  - repeat constructor; vm_compute; reflexivity.
  - vm_compute. discriminate.
Defined.

(* ===================================================================== *)
(** ** The checksum *)
(* ===================================================================== *)

Section Crc.

Local Abbreviation U := ToUint32.

Lemma ToUint32_range z : 0 <= U z < 2 ^ 32.
Proof. apply Z.mod_pos_bound. reflexivity. Qed.

Lemma ToUint32_small z : 0 <= z < 2 ^ 32 -> U z = z.
Proof. apply Z.mod_small. Qed.

Lemma ToUint32_ToInt32 z : U (ToInt32 z) = U z.
Proof.
  unfold ToUint32, ToInt32.
  rewrite Zminus_mod, Zmod_mod, <- Zminus_mod.
  f_equal. lia.
Qed.

Lemma ToInt32_range z : - 2 ^ 31 <= ToInt32 z < 2 ^ 31.
Proof.
  unfold ToInt32.
  pose proof (Z.mod_pos_bound (z + 2 ^ 31) (2 ^ 32) eq_refl). lia.
Qed.

(** A number whose Uint32 reading is below 2^8 and that is an Int32 is
    that reading. *)
Lemma ToInt32_byte z : 0 <= U z < 2 ^ 8 -> ToInt32 z = U z.
Proof.
  intros H. rewrite <- ToUint32_ToInt32 in *.
  pose proof (ToInt32_range z) as R. revert H R.
  generalize (ToInt32 z). intros i H R. unfold ToUint32 in *.
  destruct (Z.neg_nonneg_cases i) as [Hneg|Hpos].
  - exfalso. replace i with (i + 1 * 2 ^ 32 - 1 * 2 ^ 32) in H by ring.
    rewrite Zminus_mod, Z_mod_mult, Z.sub_0_r, Zmod_mod in H.
    rewrite Z.mod_small in H by lia. lia.
  - symmetry. apply Z.mod_small. lia.
Qed.

Lemma mod_lxor x y n :
  0 <= n -> Z.lxor x y mod 2 ^ n = Z.lxor (x mod 2 ^ n) (y mod 2 ^ n).
Proof. intros. rewrite <- !Z.land_ones by lia. Z.bitblast. Qed.

Lemma mod_land x y n :
  0 <= n -> Z.land x y mod 2 ^ n = Z.land (x mod 2 ^ n) (y mod 2 ^ n).
Proof. intros. rewrite <- !Z.land_ones by lia. Z.bitblast. Qed.

Lemma ToUint32_xor a b : U (JS.bitxor a b) = Z.lxor (U a) (U b).
Proof.
  unfold JS.bitxor. rewrite ToUint32_ToInt32. unfold ToUint32 at 1.
  rewrite mod_lxor by lia.
  change (Z.lxor (U (ToInt32 a)) (U (ToInt32 b)) = Z.lxor (U a) (U b)).
  now rewrite !ToUint32_ToInt32.
Qed.

Lemma ToUint32_and a b : U (JS.bitand a b) = Z.land (U a) (U b).
Proof.
  unfold JS.bitand. rewrite ToUint32_ToInt32. unfold ToUint32 at 1.
  rewrite mod_land by lia.
  change (Z.land (U (ToInt32 a)) (U (ToInt32 b)) = Z.land (U a) (U b)).
  now rewrite !ToUint32_ToInt32.
Qed.

Lemma ushr_range a n : 0 <= n < 32 -> 0 <= JS.ushr a n < 2 ^ 32.
Proof.
  intros Hn. unfold JS.ushr. rewrite (Z.mod_small n) by lia.
  pose proof (ToUint32_range a) as [H0 H1]. split.
  - apply Z.shiftr_nonneg. assumption.
  - rewrite Z.shiftr_div_pow2 by lia.
    apply Z.le_lt_trans with (U a); [|assumption].
    apply Z.div_le_upper_bound; [apply Z.pow_pos_nonneg; lia|].
    assert (1 <= 2 ^ n) by (apply (Z.pow_le_mono_r 2 0 n); lia). nia.
Qed.

Lemma ToUint32_ushr a n : 0 <= n < 32 -> U (JS.ushr a n) = Z.shiftr (U a) n.
Proof.
  intros Hn. rewrite ToUint32_small by now apply ushr_range.
  unfold JS.ushr. now rewrite (Z.mod_small n) by lia.
Qed.

(** *** The table *)

Lemma crc_bit_range r : 0 <= r < 2 ^ 32 -> 0 <= crc_bit r < 2 ^ 32.
Proof.
  intros [H0 H1]. unfold crc_bit.
  assert (Hs : 0 <= Z.shiftr r 1 < 2 ^ 31).
  { rewrite Z.shiftr_div_pow2 by lia. change (2 ^ 1) with 2.
    split; [apply Z.div_pos; lia | apply Z.div_lt_upper_bound; lia]. }
  destruct (Z.testbit r 0); [|lia].
  split.
  - apply Z.lxor_nonneg. lia.
  - replace (Z.lxor (Z.shiftr r 1) 3988292384)
      with (Z.lxor (Z.shiftr r 1) 3988292384 mod 2 ^ 32);
      [apply Z.mod_pos_bound; reflexivity|].
    rewrite mod_lxor by lia. f_equal. apply Z.mod_small. lia.
Qed.

Lemma iter_crc_bit_range k r :
  0 <= r < 2 ^ 32 -> 0 <= Nat.iter k crc_bit r < 2 ^ 32.
Proof.
  intros H. induction k; simpl; [assumption | now apply crc_bit_range].
Qed.

(** One turn of the table loop is one bit of the division. *)
Lemma crc_table_turn_spec tmp : U (crc_table_turn tmp) = crc_bit (U tmp).
Proof.
  unfold crc_table_turn, crc_bit.
  assert (Hb : negb (JS.bitand tmp 1 =? 0) = Z.testbit (U tmp) 0).
  { assert (Hu : U (JS.bitand tmp 1) = Z.land (U tmp) 1)
      by (rewrite ToUint32_and; reflexivity).
    assert (Hr : 0 <= Z.land (U tmp) 1 < 2 ^ 8).
    { change (Z.land (U tmp) 1) with (Z.land (U tmp) (Z.ones 1)).
      rewrite Z.land_ones by lia.
      pose proof (Z.mod_pos_bound (U tmp) (2 ^ 1) eq_refl).
      change (2 ^ 1) with 2 in *. change (2 ^ 8) with 256. lia. }
    rewrite <- Hu in Hr. apply ToInt32_byte in Hr.
    unfold JS.bitand at 1 in Hr. unfold JS.bitand at 1.
    assert (Hi : ToInt32 (ToInt32 (Z.land (ToInt32 tmp) (ToInt32 1)))
                 = ToInt32 (Z.land (ToInt32 tmp) (ToInt32 1))).
    { set (w := Z.land _ _). pose proof (ToInt32_range w).
      unfold ToInt32 at 1. rewrite Z.mod_small by lia. lia. }
    rewrite Hi in Hr. rewrite Hr. fold (JS.bitand tmp 1). rewrite Hu.
    rewrite Z.bit0_odd.
    change (Z.land (U tmp) 1) with (Z.land (U tmp) (Z.ones 1)).
    rewrite Z.land_ones by lia. change (2 ^ 1) with 2.
    rewrite Zmod_odd. destruct (Z.odd (U tmp)); reflexivity. }
  rewrite Hb. destruct (Z.testbit (U tmp) 0).
  - rewrite ToUint32_xor, ToUint32_ushr by lia.
    rewrite Z.lxor_comm. reflexivity.
  - apply ToUint32_ushr. lia.
Qed.

Lemma iter_crc_table_turn k tmp :
  U (Nat.iter k crc_table_turn tmp) = Nat.iter k crc_bit (U tmp).
Proof.
  induction k; simpl; [reflexivity|].
  now rewrite crc_table_turn_spec, IHk.
Qed.

Lemma crc_table_entry_spec i :
  0 <= i < 256 -> crc_table_entry i = Nat.iter 8 crc_bit i.
Proof.
  intros H. unfold crc_table_entry. rewrite iter_crc_table_turn.
  rewrite ToUint32_small by lia. reflexivity.
Qed.

Lemma crc_table_value_eq : crc_table_value = crc_table.
Proof. vm_compute. reflexivity. Qed.

(** Every slot of the table holds the entry of its index. *)
Lemma table_get_entry k :
  0 <= k < 256 -> table_get crc_table_value k = crc_table_entry k.
Proof.
  intros H.
  assert (Hall : forallb
                   (fun n => table_get crc_table_value (Z.of_nat n)
                             =? crc_table_entry (Z.of_nat n))
                   (seq 0 256) = true) by (vm_compute; reflexivity).
  rewrite forallb_forall in Hall.
  specialize (Hall (Z.to_nat k)).
  rewrite Z2Nat.id in Hall by lia.
  apply Z.eqb_eq, Hall, in_seq. lia.
Qed.

End Crc.

(** *** The division is linear over exclusive or *)

Ltac bits_cases :=
  repeat match goal with
         | |- context [Z.testbit ?x ?n] => destruct (Z.testbit x n)
         end;
  reflexivity.

Lemma crc_bit_lxor a b : crc_bit (Z.lxor a b) = Z.lxor (crc_bit a) (crc_bit b).
Proof.
  unfold crc_bit. rewrite Z.lxor_spec, Z.shiftr_lxor.
  destruct (Z.testbit a 0), (Z.testbit b 0); cbn [xorb];
    apply Z.bits_inj'; intros n Hn; rewrite !Z.lxor_spec; bits_cases.
Qed.

Lemma iter_crc_bit_lxor k a b :
  Nat.iter k crc_bit (Z.lxor a b)
  = Z.lxor (Nat.iter k crc_bit a) (Nat.iter k crc_bit b).
Proof.
  induction k; simpl; [reflexivity|]. now rewrite IHk, crc_bit_lxor.
Qed.

(** On a register whose [k] low bits are clear, [k] steps only shift. *)
Lemma iter_crc_bit_shift k y :
  (forall i, 0 <= i < Z.of_nat k -> Z.testbit y i = false) ->
  Nat.iter k crc_bit y = Z.shiftr y (Z.of_nat k).
Proof.
  induction k as [|k IH]; intros Hlow.
  - simpl. now rewrite Z.shiftr_0_r.
  - change (Nat.iter (S k) crc_bit y) with (crc_bit (Nat.iter k crc_bit y)).
    rewrite IH by (intros i Hi; apply Hlow; lia).
    unfold crc_bit. rewrite Z.shiftr_spec by lia.
    rewrite (Hlow (0 + Z.of_nat k)) by lia.
    rewrite Z.shiftr_shiftr by lia. f_equal. lia.
Qed.

(** The byte-wise step: the high part of the register is shifted and the
    low byte, mixed with the data byte, goes through eight steps. *)
Lemma crc_byte_split r d :
  crc_byte r d
  = Z.lxor (Z.shiftr r 8)
           (Nat.iter 8 crc_bit (Z.land (Z.lxor r (byte.unsigned d)) 255)).
Proof.
  unfold crc_byte.
  set (x := Z.lxor r (byte.unsigned d)).
  assert (Hx : x = Z.lxor (Z.shiftl (Z.shiftr x 8) 8) (Z.land x 255))
    by (change 255 with (Z.ones 8); Z.bitblast).
  rewrite Hx at 1. rewrite iter_crc_bit_lxor. f_equal.
  rewrite iter_crc_bit_shift.
  - change (Z.of_nat 8) with 8.
    rewrite Z.shiftr_shiftl_l, Z.sub_diag, Z.shiftl_0_r by lia.
    unfold x. rewrite Z.shiftr_lxor.
    pose proof (byte.unsigned_range d) as Hd.
    rewrite (Z.shiftr_div_pow2 (byte.unsigned d)), Z.div_small by lia.
    apply Z.lxor_0_r.
  - intros i Hi. change (Z.of_nat 8) with 8 in Hi.
    apply Z.shiftl_spec_low. lia.
Qed.

(** One turn of the loop of [crc32] keeps, as an unsigned number, the
    register of the bit-wise division. *)
Lemma crc_turn_spec crc d :
  ToUint32 (crc_turn crc_table_value crc d) = crc_byte (ToUint32 crc) d.
Proof.
  unfold crc_turn.
  pose proof (byte.unsigned_range d) as Hd.
  set (w := Z.land (Z.lxor (ToUint32 crc) (byte.unsigned d)) 255).
  assert (Hw : 0 <= w < 2 ^ 8).
  { unfold w. change 255 with (Z.ones 8). rewrite Z.land_ones by lia.
    apply Z.mod_pos_bound. reflexivity. }
  assert (Hidx : JS.bitxor (JS.bitand crc 255) (byte.unsigned d) = w).
  { assert (Hu : ToUint32 (JS.bitxor (JS.bitand crc 255) (byte.unsigned d)) = w).
    { rewrite ToUint32_xor, ToUint32_and.
      rewrite (ToUint32_small 255) by lia.
      rewrite (ToUint32_small (byte.unsigned d)) by lia.
      unfold w.
      assert (Hd' : byte.unsigned d = Z.land (byte.unsigned d) 255).
      { change 255 with (Z.ones 8). rewrite Z.land_ones by lia.
        symmetry. apply Z.mod_small. lia. }
      rewrite Hd' at 1.
      apply Z.bits_inj'. intros n Hn.
      rewrite !Z.lxor_spec, !Z.land_spec, !Z.lxor_spec. bits_cases. }
    unfold JS.bitxor at 1. unfold JS.bitxor at 1 in Hu.
    rewrite ToUint32_ToInt32 in Hu.
    rewrite ToInt32_byte; rewrite Hu; [reflexivity | assumption]. }
  rewrite Hidx, table_get_entry, crc_table_entry_spec by (change (2 ^ 8) with 256 in Hw; lia).
  rewrite ToUint32_xor, ToUint32_ushr by lia.
  rewrite (ToUint32_small (Nat.iter 8 crc_bit w))
    by (apply iter_crc_bit_range; lia).
  rewrite crc_byte_split. reflexivity.
Qed.

Lemma crc_loop_spec data : forall crc,
  ToUint32 (fold_left (crc_turn crc_table_value) data crc)
  = fold_left crc_byte data (ToUint32 crc).
Proof.
  induction data as [|d data IH]; intros crc; simpl; [reflexivity|].
  now rewrite IH, crc_turn_spec.
Qed.

(** C3. [crc32] is CRC-32/ISO-HDLC: on every buffer it returns what the
    bit-by-bit division with the reflected polynomial 0xEDB88320, an
    all-ones initial register and a final inversion returns; the
    checksum of the ASCII bytes "123456789" is 0xCBF43926, and the
    checksum of the empty buffer is 0. *)
Theorem crc32_is_iso_hdlc :
  (forall data : ArrayBuffer, crc32 data = crc32_iso_hdlc data) /\
  crc32 (bytes_of_string "123456789") = 0xCBF43926 /\
  crc32 [] = 0.
Proof.
  split; [|split; vm_compute; reflexivity].
  intros data. unfold crc32, crc32_with, crc32_iso_hdlc.
  rewrite <- (ToUint32_small (JS.ushr _ 0)) by (apply ushr_range; lia).
  rewrite ToUint32_ushr, Z.shiftr_0_r by lia.
  rewrite ToUint32_xor, crc_loop_spec. reflexivity.
Qed.

(* ===================================================================== *)
(** ** Extraction of the data blocks *)
(* ===================================================================== *)

Lemma bind_ok {A B} (r : result A) (k : A -> result B) b :
  bind r k = Ok b -> exists a, r = Ok a /\ k a = Ok b.
Proof. destruct r; simpl; intros H; [eauto | discriminate]. Qed.

Lemma Uint8Array_view_ok ab off len bs :
  Uint8Array_view ab off len = Ok bs ->
  0 <= off /\ 0 <= len /\ off + len <= byteLength ab
  /\ bs = firstn (Z.to_nat len) (skipn (Z.to_nat off) ab).
Proof.
  unfold Uint8Array_view.
  destruct (0 <=? off) eqn:E1; [|discriminate].
  destruct (0 <=? len) eqn:E2; [|discriminate].
  destruct (off + len <=? byteLength ab) eqn:E3; [|discriminate].
  cbn [andb]. intros [= <-]. repeat split; lia.
Qed.

(** A window that covers the middle one of three pieces. *)
Lemma Uint8Array_view_app (a b c : list byte) :
  Uint8Array_view (a ++ b ++ c) (Z.of_nat (length a)) (Z.of_nat (length b)) = Ok b.
Proof.
  unfold Uint8Array_view, byteLength. rewrite !length_app.
  replace (0 <=? Z.of_nat (length a)) with true by (symmetry; apply Z.leb_le; lia).
  replace (0 <=? Z.of_nat (length b)) with true by (symmetry; apply Z.leb_le; lia).
  replace (_ <=? _) with true by (symmetry; apply Z.leb_le; lia).
  cbn [andb]. rewrite !Nat2Z.id.
  rewrite skipn_exact by reflexivity. now rewrite firstn_exact.
Qed.

(** The loop always leaves: the fuel given by [lookForIDAT] is never
    spent. *)
Lemma lookForIDAT_loop_fuel ab : forall fuel offset IDATs,
  (0 < fuel)%nat ->
  byteLength ab - offset < Z.of_nat fuel ->
  lookForIDAT_loop fuel ab offset IDATs <> None.
Proof.
  induction fuel as [|fuel IH]; intros offset IDATs Hpos Hfuel; [lia|].
  cbn [lookForIDAT_loop].
  destruct (Uint8Array_view ab offset 4) as [chunktype|e] eqn:Ev; [|discriminate].
  apply Uint8Array_view_ok in Ev. destruct Ev as (Ho & _ & Hin & _).
  destruct (String.eqb (fromCharCode chunktype) "IDAT").
  - destruct (getUint32 ab (offset - 4)) as [l|e] eqn:El; [|discriminate].
    destruct (Uint8Array_view ab (offset + 4) l) as [src|e] eqn:Es; [|discriminate].
    apply Uint8Array_view_ok in Es. destruct Es as (_ & Hl & _ & _).
    apply IH; lia.
  - destruct (String.eqb (fromCharCode chunktype) "IEND"); discriminate.
Qed.

Lemma lookForIDAT_returns ab :
  exists r, lookForIDAT_loop (S (length ab)) ab 37 [] = Some r.
Proof.
  destruct (lookForIDAT_loop (S (length ab)) ab 37 []) as [r|] eqn:E; [eauto|].
  exfalso. revert E. apply lookForIDAT_loop_fuel; unfold byteLength; lia.
Qed.

(** Every block that is returned has the length read from a four-byte
    field. *)
Lemma lookForIDAT_loop_fits ab : forall fuel offset IDATs blocks,
  Forall (fun d => byteLength d < 2 ^ 32) IDATs ->
  lookForIDAT_loop fuel ab offset IDATs = Some (Ok blocks) ->
  Forall (fun d => byteLength d < 2 ^ 32) blocks.
Proof.
  induction fuel as [|fuel IH]; intros offset IDATs blocks Hacc; [discriminate|].
  cbn [lookForIDAT_loop].
  destruct (Uint8Array_view ab offset 4) as [chunktype|e] eqn:Ev; [|discriminate].
  destruct (String.eqb (fromCharCode chunktype) "IDAT").
  - destruct (getUint32 ab (offset - 4)) as [l|e] eqn:El; [|discriminate].
    destruct (Uint8Array_view ab (offset + 4) l) as [src|e] eqn:Es; [|discriminate].
    apply IH. apply Forall_app. split; [assumption|]. constructor; [|constructor].
    unfold getUint32 in El. apply bind_ok in El. destruct El as (bs & Hbs & [= <-]).
    apply Uint8Array_view_ok in Hbs. destruct Hbs as (_ & _ & _ & ->).
    apply Uint8Array_view_ok in Es. destruct Es as (Ho & Hl & Hin & ->).
    set (src := firstn _ (skipn (Z.to_nat (offset + 4)) ab)).
    assert (Hsrc : length src = Z.to_nat (be_value (firstn (Z.to_nat 4)
                                   (skipn (Z.to_nat (offset - 4)) ab)))).
    { unfold src. rewrite length_firstn, length_skipn. unfold byteLength in Hin. lia. }
    rewrite <- Hsrc, set8_fresh. unfold byteLength. rewrite Hsrc.
    rewrite Z2Nat.id by assumption.
    match goal with |- be_value ?x < _ => pose proof (be_value_range x) as R;
      assert (Hx : (length x <= 4)%nat) by apply firstn_le_length end.
    eapply Z.lt_le_trans; [apply R|].
    change (2 ^ 32) with (256 ^ 4). apply Z.pow_le_mono_r; lia.
  - destruct (String.eqb (fromCharCode chunktype) "IEND"); [|discriminate].
    intros [= <-]. assumption.
Qed.

Lemma lookForIDAT_fits ab blocks :
  lookForIDAT ab = Ok blocks -> Forall (fun d => byteLength d < 2 ^ 32) blocks.
Proof.
  unfold lookForIDAT.
  destruct (lookForIDAT_loop (S (length ab)) ab 37 []) as [r|] eqn:E; [|discriminate].
  intros ->. eapply lookForIDAT_loop_fits; [|exact E]. constructor.
Qed.

(** *** One turn on a chunk written by [buildChunk] *)

Section Turn.

Variables (pre post : list byte) (type : string) (data : ArrayBuffer).
Hypothesis type_length : String.length type = 4%nat.

Let ab := pre ++ APNGmaker.buildChunk type data ++ post.

Lemma chunk_type_read :
  Uint8Array_view ab (Z.of_nat (length pre) + 4) 4 = Ok (bytes_of_string type).
Proof.
  unfold ab. rewrite buildChunk_tagged by assumption.
  replace (pre ++ (be_bytes 4 (byteLength data) ++ bytes_of_string type ++ data
                   ++ be_bytes 4 (crc32 (bytes_of_string type ++ data))) ++ post)
    with ((pre ++ be_bytes 4 (byteLength data)) ++ bytes_of_string type
          ++ (data ++ be_bytes 4 (crc32 (bytes_of_string type ++ data)) ++ post))
    by now rewrite <- !app_assoc.
  replace (Z.of_nat (length pre) + 4)
    with (Z.of_nat (length (pre ++ be_bytes 4 (byteLength data))))
    by (rewrite length_app, be_bytes_length; lia).
  replace 4 with (Z.of_nat (length (bytes_of_string type)))
    by (rewrite bytes_of_string_length, type_length; reflexivity).
  apply Uint8Array_view_app.
Qed.

Lemma chunk_length_read :
  byteLength data < 2 ^ 32 ->
  getUint32 ab (Z.of_nat (length pre) + 4 - 4) = Ok (byteLength data).
Proof.
  intros Hfit. unfold getUint32, ab. rewrite buildChunk_tagged by assumption.
  rewrite <- !app_assoc.
  replace (Z.of_nat (length pre) + 4 - 4) with (Z.of_nat (length pre)) by lia.
  replace 4 with (Z.of_nat (length (be_bytes 4 (byteLength data))))
    by (rewrite be_bytes_length; reflexivity).
  rewrite Uint8Array_view_app. cbn [bind]. f_equal.
  apply be_value_be_bytes_small. unfold byteLength in *.
  change (256 ^ Z.of_nat 4) with (2 ^ 32). lia.
Qed.

Lemma chunk_data_read :
  Uint8Array_view ab (Z.of_nat (length pre) + 4 + 4) (byteLength data) = Ok data.
Proof.
  unfold ab. rewrite buildChunk_tagged by assumption.
  replace (pre ++ (be_bytes 4 (byteLength data) ++ bytes_of_string type ++ data
                   ++ be_bytes 4 (crc32 (bytes_of_string type ++ data))) ++ post)
    with ((pre ++ be_bytes 4 (byteLength data) ++ bytes_of_string type) ++ data
          ++ (be_bytes 4 (crc32 (bytes_of_string type ++ data)) ++ post))
    by now rewrite <- !app_assoc.
  replace (Z.of_nat (length pre) + 4 + 4)
    with (Z.of_nat (length (pre ++ be_bytes 4 (byteLength data)
                            ++ bytes_of_string type)))
    by (rewrite !length_app, be_bytes_length, bytes_of_string_length, type_length; lia).
  apply Uint8Array_view_app.
Qed.

End Turn.

(** An [IDAT] chunk: its data joins the result and the loop moves to the
    type field of the next chunk. *)
Lemma lookForIDAT_loop_IDAT fuel pre data post IDATs :
  byteLength data < 2 ^ 32 ->
  lookForIDAT_loop (S fuel) (pre ++ APNGmaker.buildChunk "IDAT" data ++ post)
                   (Z.of_nat (length pre) + 4) IDATs
  = lookForIDAT_loop fuel (pre ++ APNGmaker.buildChunk "IDAT" data ++ post)
                     (Z.of_nat (length (pre ++ APNGmaker.buildChunk "IDAT" data)) + 4)
                     (IDATs ++ [data]).
Proof.
  intros Hfit. cbn [lookForIDAT_loop].
  rewrite chunk_type_read by reflexivity. rewrite fromCharCode_bytes.
  cbn [String.eqb Ascii.eqb Bool.eqb].
  rewrite chunk_length_read by (reflexivity || assumption).
  rewrite chunk_data_read by reflexivity.
  replace (Z.to_nat (byteLength data)) with (length data)
    by (unfold byteLength; now rewrite Nat2Z.id).
  rewrite set8_fresh.
  f_equal. rewrite length_app, buildChunk_length. unfold byteLength. lia.
Qed.

(** An [IEND] chunk ends the loop. *)
Lemma lookForIDAT_loop_IEND fuel pre data post IDATs :
  lookForIDAT_loop (S fuel) (pre ++ APNGmaker.buildChunk "IEND" data ++ post)
                   (Z.of_nat (length pre) + 4) IDATs
  = Some (Ok IDATs).
Proof.
  cbn [lookForIDAT_loop].
  rewrite chunk_type_read by reflexivity. rewrite fromCharCode_bytes.
  reflexivity.
Qed.

(** Any other chunk makes the loop throw the type it found. *)
Lemma lookForIDAT_loop_other fuel pre type data post IDATs :
  String.length type = 4%nat ->
  type <> "IDAT"%string -> type <> "IEND"%string ->
  lookForIDAT_loop (S fuel) (pre ++ APNGmaker.buildChunk type data ++ post)
                   (Z.of_nat (length pre) + 4) IDATs
  = Some (Throw (Thrown type)).
Proof.
  intros Hlen H1 H2. cbn [lookForIDAT_loop].
  rewrite chunk_type_read by assumption. rewrite fromCharCode_bytes.
  apply String.eqb_neq in H1, H2. now rewrite H1, H2.
Qed.

(** A run of [IDAT] chunks. *)
Lemma lookForIDAT_loop_run blocks : forall fuel pre post IDATs,
  Forall (fun d => byteLength d < 2 ^ 32) blocks ->
  lookForIDAT_loop (length blocks + fuel)
                   (pre ++ serialize (IDAT_chunks blocks) ++ post)
                   (Z.of_nat (length pre) + 4) IDATs
  = lookForIDAT_loop fuel
                     (pre ++ serialize (IDAT_chunks blocks) ++ post)
                     (Z.of_nat (length (pre ++ serialize (IDAT_chunks blocks))) + 4)
                     (IDATs ++ blocks).
Proof.
  induction blocks as [|d blocks IH]; intros fuel pre post IDATs Hfit.
  - cbn [IDAT_chunks map serialize concat length Nat.add app].
    now rewrite !app_nil_r.
  - inversion Hfit as [|? ? Hd Hfit']; subst.
    cbn [IDAT_chunks map]. fold (IDAT_chunks blocks).
    rewrite serialize_cons. cbn [fst snd length Nat.add].
    rewrite <- !app_assoc.
    rewrite lookForIDAT_loop_IDAT by assumption.
    replace (pre ++ APNGmaker.buildChunk "IDAT" d
                 ++ serialize (IDAT_chunks blocks) ++ post)
      with ((pre ++ APNGmaker.buildChunk "IDAT" d)
              ++ serialize (IDAT_chunks blocks) ++ post)
      by now rewrite <- app_assoc.
    rewrite IH by assumption.
    rewrite <- !app_assoc. reflexivity.
Qed.

Lemma serialize_IDAT_length blocks :
  (length blocks <= length (serialize (IDAT_chunks blocks)))%nat.
Proof.
  pose proof (serialize_length_ge (IDAT_chunks blocks)) as H.
  unfold IDAT_chunks in H at 1. now rewrite length_map in H.
Qed.

(** What [lookForIDAT] returns on a buffer that holds, after 33 bytes,
    a run of [IDAT] chunks and then one more chunk. *)
Lemma lookForIDAT_stream header blocks type data rest :
  length header = 33%nat ->
  Forall (fun d => byteLength d < 2 ^ 32) blocks ->
  String.length type = 4%nat ->
  type <> "IDAT"%string ->
  lookForIDAT (header ++ serialize (IDAT_chunks blocks)
                      ++ APNGmaker.buildChunk type data ++ rest)
  = if String.eqb type "IEND" then Ok blocks else Throw (Thrown type).
Proof.
  intros Hh Hfit Htype H1.
  unfold lookForIDAT.
  set (ab := header ++ _).
  assert (Hlen : (length blocks + 1 <= S (length ab))%nat).
  { unfold ab. rewrite !length_app. pose proof (serialize_IDAT_length blocks). lia. }
  assert (Hf : exists f, S (length ab) = (length blocks + S f)%nat)
    by (exists (length ab - length blocks)%nat; lia).
  destruct Hf as [f ->].
  replace 37 with (Z.of_nat (length header) + 4) by lia.
  unfold ab. rewrite lookForIDAT_loop_run by assumption.
  rewrite (app_assoc header).
  destruct (String.eqb_spec type "IEND") as [->|H2].
  - now rewrite lookForIDAT_loop_IEND.
  - now rewrite lookForIDAT_loop_other.
Qed.

(** C6. From a single-still-image buffer (33 bytes of signature and
    header, the data blocks as [IDAT] chunks, the [IEND] chunk),
    [lookForIDAT] returns the data blocks, byte for byte and in the
    order of the stream; with exactly one [IDAT] chunk of N bytes the
    result is the list of that one block of N bytes. *)
Theorem lookForIDAT_still_image (header : list byte) (blocks : list ArrayBuffer) :
  length header = 33%nat ->
  Forall (fun d => byteLength d < 2 ^ 32) blocks ->
  lookForIDAT (still_image header blocks) = Ok blocks /\
  (forall d, blocks = [d] ->
     exists d', lookForIDAT (still_image header blocks) = Ok [d']
                /\ length d' = length d /\ d' = d).
Proof.
  intros Hh Hfit.
  assert (H : lookForIDAT (still_image header blocks) = Ok blocks).
  { unfold still_image.
    rewrite <- (app_nil_r (APNGmaker.buildChunk "IEND" [])).
    rewrite lookForIDAT_stream by (assumption || reflexivity || discriminate).
    reflexivity. }
  split; [exact H|].
  intros d ->. exists d. auto.
Qed.

Lemma lookForIDAT_still_image_witness :
  length (repeat Byte.x00 33) = 33%nat /\
  Forall (fun d => byteLength d < 2 ^ 32)
         [bytes_of_string "first"; bytes_of_string "second"] /\
  lookForIDAT (still_image (repeat Byte.x00 33)
                           [bytes_of_string "first"; bytes_of_string "second"])
  = Ok [bytes_of_string "first"; bytes_of_string "second"].
Proof.
  split; [reflexivity|].
  split; [repeat constructor; vm_compute; reflexivity|].
  apply (lookForIDAT_still_image (repeat Byte.x00 33)
           [bytes_of_string "first"; bytes_of_string "second"]).
  - reflexivity.
  - repeat constructor; vm_compute; reflexivity.
Defined.

(* ===================================================================== *)
(** ** The array of payloads filled by the [add] calls *)
(* ===================================================================== *)

Lemma store_length {A} (l : list A) : forall i x, length (store l i x) = length l.
Proof.
  induction l as [|h t IH]; intros [|i] x; simpl; auto.
Qed.

Lemma nth_error_store_same {A} (l : list A) : forall i x,
  (i < length l)%nat -> nth_error (store l i x) i = Some x.
Proof.
  induction l as [|h t IH]; intros [|i] x H; simpl in *; try lia; auto.
  apply IH. lia.
Qed.

Lemma nth_error_store_other {A} (l : list A) : forall i j x,
  i <> j -> nth_error (store l i x) j = nth_error l j.
Proof.
  induction l as [|h t IH]; intros [|i] [|j] x H; simpl; auto; try congruence.
Qed.

Lemma array_set_length {A} (arr : list (option A)) i v :
  length (array_set arr i v) = Nat.max (length arr) (S i).
Proof.
  unfold array_set. destruct (Nat.ltb_spec i (length arr)).
  - rewrite store_length. lia.
  - rewrite !length_app, repeat_length. simpl. lia.
Qed.

Lemma array_set_same {A} (arr : list (option A)) i v :
  nth_error (array_set arr i v) i = Some (Some v).
Proof.
  unfold array_set. destruct (Nat.ltb_spec i (length arr)).
  - now apply nth_error_store_same.
  - rewrite nth_error_app2 by lia.
    rewrite nth_error_app2 by (rewrite repeat_length; lia).
    rewrite repeat_length, Nat.sub_diag. reflexivity.
Qed.

(** Another index holds a value after the assignment exactly when it
    held that value before. *)
Lemma array_set_other {A} (arr : list (option A)) i j v x :
  i <> j ->
  nth_error (array_set arr i v) j = Some (Some x) <-> nth_error arr j = Some (Some x).
Proof.
  intros Hij. unfold array_set. destruct (Nat.ltb_spec i (length arr)).
  - now rewrite nth_error_store_other.
  - destruct (Nat.ltb_spec j (length arr)).
    + now rewrite nth_error_app1.
    + rewrite nth_error_app2 by lia.
      replace (nth_error arr j) with (@None (option A))
        by (symmetry; apply nth_error_None; lia).
      destruct (Nat.ltb_spec (j - length arr) (i - length arr)).
      * rewrite nth_error_app1 by (rewrite repeat_length; lia).
        rewrite nth_error_repeat by lia. split; discriminate.
      * rewrite nth_error_app2 by (rewrite repeat_length; lia).
        rewrite repeat_length.
        destruct (j - length arr - (i - length arr))%nat as [|[|k]] eqn:E;
          simpl; try (split; discriminate). lia.
Qed.

Section Adds.

Variable imgs : list HTMLCanvasElement.

Lemma add_ok self i can self' :
  APNGmaker.add self i can = Ok self' ->
  exists p, extract can = Ok p
            /\ self' = APNGmaker.set_images self
                         (array_set (APNGmaker.images self) i p).
Proof.
  unfold APNGmaker.add, extract. destruct (can_toBlob can); [|discriminate].
  intros H. apply bind_ok in H. destruct H as (p & Hp & [= <-]). eauto.
Qed.

Lemma add_throw self i can e :
  extract can = Throw e -> APNGmaker.add self i can = Throw e.
Proof.
  unfold APNGmaker.add, extract. destruct (can_toBlob can).
  - intros ->. reflexivity.
  - intros [= <-]. reflexivity.
Qed.

(** Once a call has thrown, the promise stays rejected. *)
Lemma adds_throw sched e : fold_left (APNGmaker.add_step imgs) sched (Throw e) = Throw e.
Proof. induction sched; simpl; auto. Qed.

Lemma adds_ok sched : forall self self',
  (forall i, In i sched -> (i < length imgs)%nat) ->
  sound imgs (APNGmaker.images self) ->
  (length (APNGmaker.images self) <= length imgs)%nat ->
  fold_left (APNGmaker.add_step imgs) sched (Ok self) = Ok self' ->
  self' = APNGmaker.set_images self (APNGmaker.images self')
  /\ sound imgs (APNGmaker.images self')
  /\ (length (APNGmaker.images self') <= length imgs)%nat
  /\ (forall j,
        In j sched \/ (exists x, nth_error (APNGmaker.images self) j = Some (Some x)) ->
        exists x, nth_error (APNGmaker.images self') j = Some (Some x)).
Proof.
  induction sched as [|i sched IH]; intros self self' Hin Hsound Hlen Hrun.
  - simpl in Hrun. injection Hrun as <-. repeat split; auto.
    + destruct self; reflexivity.
    + intros j [[]|H]; exact H.
  - cbn [fold_left] in Hrun. unfold APNGmaker.add_step at 2 in Hrun. cbn [bind] in Hrun.
    assert (Hi : (i < length imgs)%nat) by (apply Hin; now left).
    destruct (nth_error imgs i) as [can|] eqn:Ecan;
      [|apply nth_error_None in Ecan; lia].
    destruct (APNGmaker.add self i can) as [self1|e] eqn:Eadd;
      [|rewrite adds_throw in Hrun; discriminate].
    apply add_ok in Eadd. destruct Eadd as (p & Hp & ->).
    apply IH in Hrun; cbn [APNGmaker.set_images APNGmaker.images].
    + destruct Hrun as (Hs & Hsound' & Hlen' & Hdone).
      cbn [APNGmaker.set_images APNGmaker.images] in *.
      repeat split; auto.
      intros j Hj. apply Hdone.
        destruct (Nat.eq_dec i j) as [<-|Hij].
        { right. exists p. apply array_set_same. }
        destruct Hj as [[Hj|Hj]|[x Hx]]; [contradiction | now left |].
        right. exists x. now apply array_set_other.
    + intros k Hk. apply Hin. now right.
    + intros j x Hj. destruct (Nat.eq_dec i j) as [<-|Hij].
      * rewrite array_set_same in Hj. injection Hj as <-. eauto.
      * apply array_set_other in Hj; auto.
    + rewrite array_set_length. lia.
Qed.

(** An array that holds, at every index of a canvas, the payload of
    that canvas, and nothing else, is the list of the payloads. *)
Lemma filled_array : forall (cans : list HTMLCanvasElement) arr,
  (length arr <= length cans)%nat ->
  (forall j can, nth_error cans j = Some can ->
                 exists x, nth_error arr j = Some (Some x) /\ extract can = Ok x) ->
  exists ps, extract_all cans = Some ps /\ arr = map Some ps.
Proof.
  induction cans as [|can cans IH]; intros arr Hlen Hall.
  - destruct arr; [|simpl in Hlen; lia]. exists []. auto.
  - destruct (Hall 0%nat can eq_refl) as (x & Hx & Hex).
    destruct arr as [|a arr]; [discriminate|]. simpl in Hx. injection Hx as ->.
    destruct (IH arr) as (ps & Hps & ->).
    + simpl in Hlen. lia.
    + intros j c Hj. apply (Hall (S j) c Hj).
    + exists (x :: ps). cbn [extract_all map]. now rewrite Hex, Hps.
Qed.

(** When every call started by the constructor has finished without
    throwing, [this.images] is the list of the extracted payloads in
    index order, whatever the order in which the calls finished, and
    the other fields are untouched. *)
Lemma adds_complete sched self self' :
  Permutation sched (seq 0 (length imgs)) ->
  APNGmaker.images self = [] ->
  fold_left (APNGmaker.add_step imgs) sched (Ok self) = Ok self' ->
  exists ps, extract_all imgs = Some ps
             /\ self' = APNGmaker.set_images self (map Some ps).
Proof.
  intros Hperm Hempty Hrun.
  apply adds_ok in Hrun.
  - destruct Hrun as (Hs & Hsound & Hlen & Hdone).
    destruct (filled_array imgs (APNGmaker.images self')) as (ps & Hps & Harr).
    + assumption.
    + intros j can Hj.
      destruct (Hdone j) as (x & Hx).
      { left. apply (Permutation_in _ (Permutation_sym Hperm)), in_seq.
        assert (nth_error imgs j <> None) as Hlt by congruence.
        apply nth_error_Some in Hlt. lia. }
      exists x. split; [assumption|].
      destruct (Hsound j x Hx) as (can' & Hcan' & Hex). congruence.
    + exists ps. split; [assumption|]. now rewrite <- Harr.
  - intros i Hi. apply (Permutation_in _ Hperm), in_seq in Hi. lia.
  - rewrite Hempty. intros [|j] x; discriminate.
  - rewrite Hempty. simpl. lia.
Qed.

(** When the extraction of one canvas throws, the promise is rejected. *)
Lemma adds_fail sched k can e : forall acc,
  In k sched ->
  nth_error imgs k = Some can ->
  extract can = Throw e ->
  exists e', fold_left (APNGmaker.add_step imgs) sched acc = Throw e'.
Proof.
  induction sched as [|i sched IH]; intros acc Hin Hk Hex; [contradiction|].
  cbn [fold_left].
  destruct acc as [self|e0]; [|exists e0; apply adds_throw].
  destruct Hin as [->|Hin].
  - unfold APNGmaker.add_step at 2. cbn [bind]. rewrite Hk.
    rewrite (add_throw _ _ _ _ Hex). exists e. apply adds_throw.
  - eapply IH; eassumption.
Qed.

End Adds.

(* ===================================================================== *)
(** ** Assembly *)
(* ===================================================================== *)

Lemma setUint32_num buf off z :
  setUint32 buf off (JSnum z) = set8 buf (be_bytes 4 z) off.
Proof.
  unfold setUint32. rewrite wrap_num.
  change (2 ^ 32) with (256 ^ Z.of_nat 4). now rewrite be_bytes_mod.
Qed.

Lemma setUint16_bytes buf off v :
  setUint16 buf off v = set8 buf (be_bytes 2 (wrap 16 (ToNumber v))) off.
Proof. reflexivity. Qed.

(** The 26 bytes of the [fcTL] payload after the seven writes. *)
Lemma fcTL_buffer sn w h fps :
  setUint8 (setUint8 (setUint16 (setUint16 (setUint32 (setUint32 (setUint32
    (new_ArrayBuffer 26) 0 (JSnum sn)) 4 (JSnum w)) 8 (JSnum h))
    20 (JSnum 1)) 22 fps) 24 (JSnum 0)) 25 (JSnum 0)
  = fcTL_data sn w h (wrap 16 (ToNumber fps)).
Proof.
  rewrite !setUint32_num, !setUint16_bytes. reflexivity.
Qed.

(** The 13 bytes of the [IHDR] payload. *)
Lemma IHDR_buffer w h :
  set8 (setUint32 (setUint32 (new_ArrayBuffer 13) 0 (JSnum w)) 4 (JSnum h))
       (map byte.of_Z [8; 6; 0; 0; 0]) 8
  = IHDR_data w h.
Proof. rewrite !setUint32_num. reflexivity. Qed.

(** The 8 bytes of the [acTL] payload. *)
Lemma acTL_buffer n plays :
  setUint32 (setUint32 (new_ArrayBuffer 8) 0 (JSnum n)) 4 plays
  = acTL_data n (wrap 32 (ToNumber plays)).
Proof. rewrite setUint32_num. reflexivity. Qed.

(** The twelve constant bytes of [this.iEND] are the chunk [buildChunk]
    would write for the type [IEND] and no data. *)
Lemma iEND_buffer :
  set8 (new_ArrayBuffer 12)
       (map byte.of_Z [0x00; 0x00; 0x00; 0x00; 0x49; 0x45; 0x4E; 0x44;
                       0xAE; 0x42; 0x60; 0x82]) 0
  = APNGmaker.buildChunk "IEND" [].
Proof. vm_compute. reflexivity. Qed.

Lemma signature_buffer :
  set8 (new_ArrayBuffer 8)
       (map byte.of_Z [0x89; 0x50; 0x4e; 0x47; 0x0d; 0x0a; 0x1a; 0x0a]) 0
  = PNG_signature.
Proof. vm_compute. reflexivity. Qed.

(** The two loops over the blocks of a frame. *)
Lemma IDAT_loop data : forall chunks,
  fold_left (fun chunks d => chunks ++ [APNGmaker.buildChunk "IDAT" d]) data chunks
  = chunks ++ map (fun c => APNGmaker.buildChunk (fst c) (snd c)) (IDAT_chunks data).
Proof.
  induction data as [|d data IH]; intros chunks; simpl.
  - now rewrite app_nil_r.
  - rewrite IH, <- app_assoc. reflexivity.
Qed.

Lemma fdAT_loop data : forall sn chunks,
  fold_left
    (fun '(seq, chunks) d =>
       let sequence_number := new_ArrayBuffer 4 in
       let sequence_number := setUint32 sequence_number 0 (JSnum seq) in
       let seq := seq + 1 in
       let fdAT := joinBuffers [sequence_number; d] in
       (seq, chunks ++ [APNGmaker.buildChunk "fdAT" fdAT]))
    data (sn, chunks)
  = (sn + Z.of_nat (length data),
     chunks ++ map (fun c => APNGmaker.buildChunk (fst c) (snd c)) (fdAT_chunks sn data)).
Proof.
  induction data as [|d data IH]; intros sn chunks.
  - simpl. now rewrite app_nil_r, Z.add_0_r.
  - cbn [fold_left]. cbv zeta. rewrite IH.
    rewrite joinBuffers_concat, setUint32_num.
    cbn [concat fdAT_chunks map fst snd length]. rewrite app_nil_r.
    change (set8 (new_ArrayBuffer 4) (be_bytes 4 sn) 0)
      with (set8 (new_ArrayBuffer (length (be_bytes 4 sn))) (be_bytes 4 sn) 0).
    rewrite set8_fresh, <- app_assoc. f_equal. lia.
Qed.

Section Build.

Variable self : APNGmaker.this.

Let w := APNGmaker.width self.
Let h := APNGmaker.height self.
Let den := wrap 16 (ToNumber (APNGmaker.FPS self)).

(** One call of the callback of [forEach]. *)
Lemma build_frame_eq sn frames data i :
  APNGmaker.build_frame self (sn, frames) data i
  = if (i =? 0)%nat
    then (sn + 1,
          frames ++ [serialize (("fcTL"%string, fcTL_data sn w h den)
                                  :: IDAT_chunks data)])
    else (sn + 1 + Z.of_nat (length data),
          frames ++ [serialize (("fcTL"%string, fcTL_data sn w h den)
                                  :: fdAT_chunks (sn + 1) data)]).
Proof.
  unfold APNGmaker.build_frame. cbv zeta.
  rewrite fcTL_buffer. fold w h den.
  destruct (i =? 0)%nat.
  - rewrite IDAT_loop, joinBuffers_concat. reflexivity.
  - rewrite fdAT_loop, joinBuffers_concat. reflexivity.
Qed.

(** The whole [forEach], from any index on. *)
Lemma build_frames ps : forall sn frames i,
  exists sn',
    fold_left
      (fun '(s, i) x =>
         (match x with
          | Some a => APNGmaker.build_frame self s a i
          | None => s
          end, S i))
      (map Some ps) ((sn, frames), i)
    = ((sn', frames ++ map serialize (frame_chunks w h den (i =? 0)%nat sn ps)),
       (i + length ps)%nat).
Proof.
  induction ps as [|data ps IH]; intros sn frames i.
  - exists sn. simpl. now rewrite app_nil_r, Nat.add_0_r.
  - cbn [map fold_left]. rewrite build_frame_eq.
    destruct (i =? 0)%nat eqn:Ei.
    + destruct (IH (sn + 1) (frames ++ [serialize (("fcTL"%string, fcTL_data sn w h den)
                                                     :: IDAT_chunks data)]) (S i))
        as (sn' & ->).
      exists sn'. cbn [frame_chunks map Nat.eqb length].
      rewrite <- app_assoc. f_equal. lia.
    + destruct (IH (sn + 1 + Z.of_nat (length data))
                   (frames ++ [serialize (("fcTL"%string, fcTL_data sn w h den)
                                            :: fdAT_chunks (sn + 1) data)]) (S i))
        as (sn' & ->).
      exists sn'. cbn [frame_chunks map Nat.eqb length].
      rewrite <- app_assoc. f_equal. lia.
Qed.

Lemma build_eq ps :
  APNGmaker.images self = map Some ps ->
  APNGmaker.frames self = [] ->
  APNGmaker.build self
  = new_Blob
      ([APNGmaker.signature self; APNGmaker.IHDR self;
        APNGmaker.buildChunk "acTL"
          (acTL_data (Z.of_nat (length ps))
                     (wrap 32 (ToNumber (APNGmaker.numplays self))))]
         ++ map serialize (frame_chunks w h den true 0 ps)
         ++ [APNGmaker.iEND self])
      "image/apng".
Proof.
  intros Himgs Hframes. unfold APNGmaker.build. cbv zeta.
  rewrite acTL_buffer, Himgs, Hframes, length_map.
  unfold forEach.
  destruct (build_frames ps 0 [] 0%nat) as (sn' & ->).
  reflexivity.
Qed.

End Build.

(* ===================================================================== *)
(** ** The constructor *)
(* ===================================================================== *)

Lemma init_ok imgs FPS numplays self :
  APNGmaker.init imgs FPS numplays = Ok self ->
  exists im0 rest,
    imgs = im0 :: rest
    /\ self = {| APNGmaker.width := can_width im0;
                 APNGmaker.height := can_height im0;
                 APNGmaker.FPS := JS.or_else FPS (JSnum 30);
                 APNGmaker.numplays := JS.or_else numplays (JSnum 0);
                 APNGmaker.signature := PNG_signature;
                 APNGmaker.IHDR :=
                   APNGmaker.buildChunk "IHDR"
                     (IHDR_data (can_width im0) (can_height im0));
                 APNGmaker.iEND := APNGmaker.buildChunk "IEND" [];
                 APNGmaker.frames := [];
                 APNGmaker.images := [] |}.
Proof.
  unfold APNGmaker.init. destruct imgs as [|im0 rest]; [discriminate|].
  cbv zeta. rewrite IHDR_buffer, iEND_buffer, signature_buffer.
  intros [= <-]. eauto.
Qed.

Lemma serialize_concat (css : list (list chunk)) :
  serialize (concat css) = concat (map serialize css).
Proof.
  induction css as [|cs css IH]; [reflexivity|].
  cbn [concat map]. now rewrite serialize_app, IH.
Qed.

Lemma extract_all_length imgs : forall ps,
  extract_all imgs = Some ps -> length ps = length imgs.
Proof.
  induction imgs as [|can imgs IH]; intros ps; simpl.
  - intros [= <-]. reflexivity.
  - destruct (extract can); [|discriminate].
    destruct (extract_all imgs); [|discriminate].
    intros [= <-]. simpl. f_equal. now apply IH.
Qed.

(** What a fulfilled promise holds: every canvas yielded its payload
    list, and the blob is the signature followed by the chunks of the
    animation, each written by [buildChunk]; its type is the one given
    to the [Blob] constructor. *)
Lemma constructor_ok sched imgs FPS numplays blob :
  Permutation sched (seq 0 (length imgs)) ->
  APNGmaker.constructor sched imgs FPS numplays = Ok blob ->
  exists im0 rest ps,
    imgs = im0 :: rest
    /\ extract_all imgs = Some ps
    /\ blob = {| blob_bytes :=
                   PNG_signature
                   ++ serialize (animation_chunks
                                   (can_width im0) (can_height im0)
                                   (delay_denominator FPS) (play_count numplays) ps);
                 blob_type := "image/apng" |}.
Proof.
  intros Hperm Hrun. unfold APNGmaker.constructor in Hrun.
  apply bind_ok in Hrun. destruct Hrun as (self0 & Hinit & Hrun).
  apply bind_ok in Hrun. destruct Hrun as (self & Hadds & [= <-]).
  apply init_ok in Hinit. destruct Hinit as (im0 & rest & Himgs & Hself0).
  apply (adds_complete imgs sched self0 self Hperm) in Hadds;
    [|subst self0; reflexivity].
  destruct Hadds as (ps & Hps & Hself).
  exists im0, rest, ps. repeat split; try assumption.
  rewrite (build_eq self ps) by (subst self self0; reflexivity).
  subst self self0. cbn [APNGmaker.set_images APNGmaker.signature APNGmaker.IHDR
                         APNGmaker.iEND APNGmaker.width APNGmaker.height
                         APNGmaker.FPS APNGmaker.numplays].
  unfold new_Blob. f_equal.
  unfold animation_chunks, delay_denominator, play_count.
  rewrite !serialize_app, serialize_concat.
  cbn [concat app serialize map fst snd]. rewrite !concat_app.
  cbn [concat]. rewrite !app_nil_r, <- !app_assoc. reflexivity.
Qed.

(** Conversely, when every canvas yields its payload list the promise is
    fulfilled. *)
Lemma adds_succeed imgs sched : forall self,
  (forall i can, In i sched -> nth_error imgs i = Some can ->
                 exists p, extract can = Ok p) ->
  exists self', fold_left (APNGmaker.add_step imgs) sched (Ok self) = Ok self'.
Proof.
  induction sched as [|i sched IH]; intros self Hall.
  - exists self. reflexivity.
  - cbn [fold_left]. unfold APNGmaker.add_step at 2. cbn [bind].
    destruct (nth_error imgs i) as [can|] eqn:Ecan.
    + destruct (Hall i can (or_introl eq_refl) Ecan) as (p & Hp).
      unfold APNGmaker.add. unfold extract in Hp.
      destruct (can_toBlob can); [|discriminate]. rewrite Hp. cbn [bind].
      apply IH. intros k c Hk. apply Hall. now right.
    + apply IH. intros k c Hk. apply Hall. now right.
Qed.

Lemma extract_all_nth imgs : forall ps i can,
  extract_all imgs = Some ps -> nth_error imgs i = Some can ->
  exists p, extract can = Ok p.
Proof.
  induction imgs as [|c imgs IH]; intros ps i can Hall Hi.
  - destruct i; discriminate.
  - simpl in Hall. destruct (extract c) as [p|] eqn:Ec; [|discriminate].
    destruct (extract_all imgs) as [ps'|] eqn:Eps; [|discriminate].
    destruct i as [|i]; simpl in Hi.
    + injection Hi as <-. eauto.
    + eapply IH; eauto.
Qed.

Lemma constructor_succeeds sched imgs FPS numplays ps :
  imgs <> [] ->
  extract_all imgs = Some ps ->
  exists blob, APNGmaker.constructor sched imgs FPS numplays = Ok blob.
Proof.
  intros Hne Hps. unfold APNGmaker.constructor.
  destruct imgs as [|im0 rest]; [congruence|].
  cbn [APNGmaker.init bind].
  match goal with
  | |- context [fold_left ?f sched (Ok ?s)] =>
      destruct (adds_succeed (im0 :: rest) sched s) as (self' & Hrun)
  end.
  - intros i can _ Hi. eapply extract_all_nth; eauto.
  - rewrite Hrun. cbn [bind]. eauto.
Qed.

(* ===================================================================== *)
(** ** The chunks of an animation *)
(* ===================================================================== *)

Lemma Z_range_succ from n : Z_range from (S n) = from :: Z_range (from + 1) n.
Proof.
  unfold Z_range. cbn [seq map]. f_equal; [lia|].
  rewrite <- seq_shift, map_map. apply map_ext. intros k. lia.
Qed.

Lemma Z_range_app from n m :
  Z_range from (n + m) = Z_range from n ++ Z_range (from + Z.of_nat n) m.
Proof.
  revert from. induction n as [|n IH]; intros from.
  - simpl. f_equal. lia.
  - cbn [Nat.add]. rewrite !Z_range_succ, IH. cbn [app]. do 3 f_equal. lia.
Qed.

Lemma fcTL_data_length sn w h den : length (fcTL_data sn w h den) = 26%nat.
Proof. reflexivity. Qed.

Lemma IDAT_chunks_fit p : IDAT_fit p -> Forall chunk_fits (IDAT_chunks p).
Proof.
  unfold IDAT_chunks. intros H. apply Forall_map.
  eapply Forall_impl; [|exact H]. intros d Hd. split; [reflexivity | exact Hd].
Qed.

Lemma fdAT_chunks_fit p : forall sn,
  Forall (fun d => byteLength d + 4 < 2 ^ 32) p ->
  Forall chunk_fits (fdAT_chunks sn p).
Proof.
  induction p as [|d p IH]; intros sn H; [constructor|].
  inversion H; subst. cbn [fdAT_chunks]. constructor; [|now apply IH].
  split; [reflexivity|]. cbn [snd]. unfold byteLength in *.
  rewrite length_app, be_bytes_length. lia.
Qed.

Lemma fcTL_chunk_fits sn w h den : chunk_fits ("fcTL"%string, fcTL_data sn w h den).
Proof. split; [reflexivity | vm_compute; reflexivity]. Qed.

Lemma later_frames_fit w h den ps : forall sn,
  fdAT_fit ps ->
  Forall chunk_fits (concat (frame_chunks w h den false sn ps)).
Proof.
  induction ps as [|p ps IH]; intros sn H; [constructor|].
  inversion H; subst. cbn [frame_chunks concat].
  apply Forall_app. split; [|now apply IH].
  constructor; [apply fcTL_chunk_fits | now apply fdAT_chunks_fit].
Qed.

Lemma frames_fit w h den ps :
  IDAT_fit (hd [] ps) -> fdAT_fit (tl ps) ->
  Forall chunk_fits (concat (frame_chunks w h den true 0 ps)).
Proof.
  destruct ps as [|p ps]; [constructor|]. cbn [hd tl frame_chunks concat].
  intros H0 H1. apply Forall_app. split; [|now apply later_frames_fit].
  constructor; [apply fcTL_chunk_fits | now apply IDAT_chunks_fit].
Qed.

Lemma animation_chunks_fit w h den plays ps :
  IDAT_fit (hd [] ps) -> fdAT_fit (tl ps) ->
  Forall chunk_fits (animation_chunks w h den plays ps).
Proof.
  intros H0 H1. unfold animation_chunks.
  repeat (apply Forall_app; split); try now apply frames_fit.
  - repeat constructor.
  - repeat constructor.
Qed.

(** The first payload list of a fulfilled promise fits by itself: its
    block lengths were read from four-byte fields. *)
Lemma extract_all_first_fits imgs ps :
  extract_all imgs = Some ps -> IDAT_fit (hd [] ps).
Proof.
  destruct imgs as [|can imgs]; simpl.
  - intros [= <-]. constructor.
  - destruct (extract can) as [p|] eqn:Ep; [|discriminate].
    destruct (extract_all imgs); [|discriminate]. intros [= <-]. cbn [hd].
    unfold extract in Ep. destruct (can_toBlob can); [|discriminate].
    now apply lookForIDAT_fits in Ep.
Qed.

(** Decoding what follows the signature. *)
Lemma decode_after_signature cs :
  Forall chunk_fits cs ->
  decode_chunks (skipn 8 (PNG_signature ++ serialize cs)) = Some cs.
Proof.
  intros H. rewrite skipn_exact by reflexivity. now apply decode_chunks_serialize.
Qed.

(** *** Counting chunks by type *)

Lemma count_tag_app t cs1 cs2 :
  count_tag t (cs1 ++ cs2) = (count_tag t cs1 + count_tag t cs2)%nat.
Proof. unfold count_tag. now rewrite filter_app, length_app. Qed.

Lemma count_tag_cons t c cs :
  count_tag t (c :: cs)
  = ((if String.eqb (fst c) t then 1 else 0) + count_tag t cs)%nat.
Proof.
  unfold count_tag, has_tag. cbn [filter].
  destruct (String.eqb (fst c) t); reflexivity.
Qed.

Lemma count_tag_IDAT_chunks t p :
  count_tag t (IDAT_chunks p) = if String.eqb "IDAT" t then length p else 0%nat.
Proof.
  induction p as [|d p IH]; cbn [IDAT_chunks map].
  - now destruct (String.eqb "IDAT" t).
  - fold (IDAT_chunks p). rewrite count_tag_cons, IH. cbn [fst].
    destruct (String.eqb "IDAT" t); reflexivity.
Qed.

Lemma count_tag_fdAT_chunks t p : forall sn,
  count_tag t (fdAT_chunks sn p) = if String.eqb "fdAT" t then length p else 0%nat.
Proof.
  induction p as [|d p IH]; intros sn; cbn [fdAT_chunks].
  - now destruct (String.eqb "fdAT" t).
  - rewrite count_tag_cons, IH. cbn [fst].
    destruct (String.eqb "fdAT" t); reflexivity.
Qed.

Lemma count_tag_later_frames t w h den ps : forall sn,
  count_tag t (concat (frame_chunks w h den false sn ps))
  = ((if String.eqb "fcTL" t then length ps else 0)
     + (if String.eqb "fdAT" t then length (concat ps) else 0))%nat.
Proof.
  induction ps as [|p ps IH]; intros sn; cbn [frame_chunks concat].
  - destruct (String.eqb "fcTL" t), (String.eqb "fdAT" t); reflexivity.
  - rewrite count_tag_app, count_tag_cons, count_tag_fdAT_chunks, IH.
    cbn [fst length]. rewrite length_app.
    destruct (String.eqb "fcTL" t), (String.eqb "fdAT" t); lia.
Qed.

Lemma count_tag_frames t w h den ps :
  count_tag t (concat (frame_chunks w h den true 0 ps))
  = ((if String.eqb "fcTL" t then length ps else 0)
     + (if String.eqb "IDAT" t then length (hd [] ps) else 0)
     + (if String.eqb "fdAT" t then length (concat (tl ps)) else 0))%nat.
Proof.
  destruct ps as [|p ps]; cbn [frame_chunks concat hd tl].
  - destruct (String.eqb "fcTL" t), (String.eqb "IDAT" t), (String.eqb "fdAT" t);
      reflexivity.
  - rewrite count_tag_app, count_tag_cons, count_tag_IDAT_chunks,
      count_tag_later_frames.
    cbn [fst length].
    destruct (String.eqb "fcTL" t), (String.eqb "IDAT" t), (String.eqb "fdAT" t);
      lia.
Qed.

Lemma count_tag_animation t w h den plays ps :
  count_tag t (animation_chunks w h den plays ps)
  = ((if String.eqb "IHDR" t then 1 else 0)
     + (if String.eqb "acTL" t then 1 else 0)
     + (if String.eqb "fcTL" t then length ps else 0)
     + (if String.eqb "IDAT" t then length (hd [] ps) else 0)
     + (if String.eqb "fdAT" t then length (concat (tl ps)) else 0)
     + (if String.eqb "IEND" t then 1 else 0))%nat.
Proof.
  unfold animation_chunks.
  rewrite !count_tag_app, count_tag_frames, !count_tag_cons. cbn [fst].
  unfold count_tag at 1 2. cbn [filter length]. lia.
Qed.

(** *** Sequence numbers *)

Lemma sequence_numbers_app cs1 cs2 :
  sequence_numbers (cs1 ++ cs2) = sequence_numbers cs1 ++ sequence_numbers cs2.
Proof.
  induction cs1 as [|c cs1 IH]; [reflexivity|].
  cbn [app sequence_numbers]. destruct (sequence_number c); cbn [app]; now rewrite IH.
Qed.

Lemma sequence_numbers_IDAT_chunks p : sequence_numbers (IDAT_chunks p) = [].
Proof. induction p as [|d p IH]; [reflexivity | exact IH]. Qed.

Lemma sequence_number_fcTL sn w h den :
  sequence_number ("fcTL"%string, fcTL_data sn w h den) = Some (ToUint32 sn).
Proof.
  unfold sequence_number. cbn [has_tag fst snd String.eqb Ascii.eqb Bool.eqb orb].
  unfold fcTL_data. rewrite firstn_exact by apply be_bytes_length.
  f_equal. apply be_value_be_bytes.
Qed.

Lemma sequence_number_fdAT sn d :
  sequence_number ("fdAT"%string, be_bytes 4 sn ++ d) = Some (ToUint32 sn).
Proof.
  unfold sequence_number. cbn [has_tag fst snd String.eqb Ascii.eqb Bool.eqb orb].
  rewrite firstn_exact by apply be_bytes_length.
  f_equal. apply be_value_be_bytes.
Qed.

Lemma sequence_numbers_fdAT_chunks p : forall sn,
  sequence_numbers (fdAT_chunks sn p) = map ToUint32 (Z_range sn (length p)).
Proof.
  induction p as [|d p IH]; intros sn; [reflexivity|].
  cbn [length fdAT_chunks sequence_numbers].
  rewrite sequence_number_fdAT, Z_range_succ, IH. reflexivity.
Qed.

Lemma sequence_numbers_later_frames w h den ps : forall sn,
  sequence_numbers (concat (frame_chunks w h den false sn ps))
  = map ToUint32 (Z_range sn (length ps + length (concat ps))).
Proof.
  induction ps as [|p ps IH]; intros sn; [reflexivity|].
  cbn [length concat]. rewrite length_app.
  cbn [frame_chunks concat]. rewrite sequence_numbers_app.
  cbn [sequence_numbers]. rewrite sequence_number_fcTL.
  rewrite sequence_numbers_fdAT_chunks, IH.
  replace (S (length ps) + (length p + length (concat ps)))%nat
    with (S (length p + (length ps + length (concat ps)))) by lia.
  rewrite Z_range_succ, (Z_range_app (sn + 1) (length p)), map_cons, map_app.
  reflexivity.
Qed.

Lemma sequence_numbers_frames w h den ps :
  sequence_numbers (concat (frame_chunks w h den true 0 ps))
  = map ToUint32 (Z_range 0 (length ps + length (concat (tl ps)))).
Proof.
  destruct ps as [|p ps]; [reflexivity|].
  cbn [length tl]. cbn [frame_chunks concat]. rewrite sequence_numbers_app.
  cbn [sequence_numbers]. rewrite sequence_number_fcTL.
  rewrite sequence_numbers_IDAT_chunks, sequence_numbers_later_frames.
  cbn [Nat.add]. rewrite Z_range_succ. reflexivity.
Qed.

(** The sequence numbers of an animation are the values of the counter,
    each reduced to the 32 bits of its field. *)
Lemma sequence_numbers_animation w h den plays ps :
  sequence_numbers (animation_chunks w h den plays ps)
  = map ToUint32 (Z_range 0 (length ps + length (concat (tl ps)))).
Proof.
  unfold animation_chunks. rewrite !sequence_numbers_app.
  rewrite sequence_numbers_frames.
  cbn. apply app_nil_r.
Qed.

(** Below 2^32 the reduction changes nothing. *)
Lemma Z_range_small n :
  Z.of_nat n <= 2 ^ 32 -> map ToUint32 (Z_range 0 n) = map Z.of_nat (seq 0 n).
Proof.
  intros H. unfold Z_range. rewrite map_map. apply map_ext_in.
  intros k Hk. apply in_seq in Hk. apply ToUint32_small. lia.
Qed.

(** The [IDAT] chunks of an animation are the blocks of frame 0. *)
Lemma filter_IDAT_later_frames w h den ps : forall sn,
  filter (has_tag "IDAT") (concat (frame_chunks w h den false sn ps)) = [].
Proof.
  assert (Hfd : forall p sn, filter (has_tag "IDAT") (fdAT_chunks sn p) = []).
  { induction p as [|d p IH]; intros sn; [reflexivity | apply IH]. }
  induction ps as [|p ps IH]; intros sn; [reflexivity|].
  cbn [frame_chunks concat]. rewrite filter_app, IH.
  cbn [filter has_tag fst String.eqb Ascii.eqb Bool.eqb]. rewrite Hfd. reflexivity.
Qed.

Lemma filter_IDAT_animation w h den plays ps :
  filter (has_tag "IDAT") (animation_chunks w h den plays ps) = IDAT_chunks (hd [] ps).
Proof.
  assert (Hid : forall p, filter (has_tag "IDAT") (IDAT_chunks p) = IDAT_chunks p).
  { induction p as [|d p IH]; [reflexivity|].
    cbn [IDAT_chunks map filter has_tag fst String.eqb Ascii.eqb Bool.eqb].
    f_equal. exact IH. }
  unfold animation_chunks. rewrite !filter_app.
  destruct ps as [|p ps]; [reflexivity|].
  cbn [frame_chunks concat hd]. rewrite filter_app, filter_IDAT_later_frames.
  cbn [filter has_tag fst String.eqb Ascii.eqb Bool.eqb app].
  rewrite Hid. now rewrite !app_nil_r.
Qed.

(** *** The delay fields and the play count *)

Lemma wrap_range bits n : 0 < bits -> 0 <= wrap bits n < 2 ^ bits.
Proof.
  intros H. destruct n as [| |q]; cbn [wrap].
  - split; [lia | apply Z.pow_pos_nonneg; lia].
  - split; [lia | apply Z.pow_pos_nonneg; lia].
  - apply Z.mod_pos_bound. apply Z.pow_pos_nonneg; lia.
Qed.

Lemma fcTL_delay sn w h den :
  0 <= den < 2 ^ 16 ->
  delay_num ("fcTL"%string, fcTL_data sn w h den) = 1
  /\ delay_den ("fcTL"%string, fcTL_data sn w h den) = den.
Proof.
  intros H. unfold delay_num, delay_den. cbn [snd]. split.
  - reflexivity.
  - change (firstn 2 (skipn 22 (fcTL_data sn w h den))) with (be_bytes 2 den).
    apply be_value_be_bytes_small. change (256 ^ Z.of_nat 2) with (2 ^ 16). lia.
Qed.

(** Every [fcTL] chunk of an animation has the payload [fcTL_data] writes
    for some sequence number. *)
Lemma fcTL_in_frames w h den ps : forall first sn c,
  In c (concat (frame_chunks w h den first sn ps)) ->
  has_tag "fcTL" c = true ->
  exists sn', c = ("fcTL"%string, fcTL_data sn' w h den).
Proof.
  assert (Hid : forall p c, In c (IDAT_chunks p) -> has_tag "fcTL" c = true -> False).
  { intros p c Hin. apply in_map_iff in Hin. destruct Hin as (d & <- & _). discriminate. }
  assert (Hfd : forall p sn c, In c (fdAT_chunks sn p) -> has_tag "fcTL" c = true -> False).
  { induction p as [|d p IH]; intros sn c; [intros []|].
    intros [<-|Hin]; [discriminate | now apply (IH (sn + 1))]. }
  induction ps as [|p ps IH]; intros first sn c Hin Htag; [destruct Hin|].
  destruct first; cbn [frame_chunks concat] in Hin;
    apply in_app_or in Hin; destruct Hin as [[<-|Hin]|Hin]; eauto.
  - exfalso. eapply Hid; eauto.
  - exfalso. eapply Hfd; eauto.
Qed.

Lemma fcTL_in_animation w h den plays ps c :
  In c (animation_chunks w h den plays ps) ->
  has_tag "fcTL" c = true ->
  exists sn, c = ("fcTL"%string, fcTL_data sn w h den).
Proof.
  unfold animation_chunks. intros Hin Htag.
  apply in_app_or in Hin. destruct Hin as [[<-|[<-|[]]]|Hin]; try discriminate.
  apply in_app_or in Hin. destruct Hin as [Hin|[<-|[]]]; try discriminate.
  eapply fcTL_in_frames; eauto.
Qed.

Lemma acTL_in_animation w h den plays ps c :
  In c (animation_chunks w h den plays ps) ->
  has_tag "acTL" c = true ->
  c = ("acTL"%string, acTL_data (Z.of_nat (length ps)) plays).
Proof.
  assert (Hid : forall p c, In c (IDAT_chunks p) -> has_tag "acTL" c = true -> False).
  { intros p c' Hin. apply in_map_iff in Hin. destruct Hin as (d & <- & _). discriminate. }
  assert (Hfd : forall p sn c, In c (fdAT_chunks sn p) -> has_tag "acTL" c = true -> False).
  { induction p as [|d p IH]; intros sn c'; [intros []|].
    intros [<-|Hin]; [discriminate | now apply (IH (sn + 1))]. }
  assert (Hfr : forall first sn c,
             In c (concat (frame_chunks w h den first sn ps)) ->
             has_tag "acTL" c = true -> False).
  { clear c. induction ps as [|p ps' IH]; intros first sn c Hin Htag; [destruct Hin|].
    destruct first; cbn [frame_chunks concat] in Hin;
      apply in_app_or in Hin; destruct Hin as [[<-|Hin]|Hin]; try discriminate; eauto. }
  unfold animation_chunks. intros Hin Htag.
  apply in_app_or in Hin. destruct Hin as [[<-|[<-|[]]]|Hin]; try discriminate; auto.
  apply in_app_or in Hin. destruct Hin as [Hin|[<-|[]]]; try discriminate.
  exfalso. eapply Hfr; eauto.
Qed.

(** The chunks of frame [i] are those of payload [i]: an [fcTL] chunk,
    then the blocks as [IDAT] chunks for frame 0 and as [fdAT] chunks
    for the others. *)
Lemma frame_chunks_nth w h den ps : forall first sn i fc,
  nth_error (frame_chunks w h den first sn ps) i = Some fc ->
  exists sn' p,
    nth_error ps i = Some p
    /\ fc = ("fcTL"%string, fcTL_data sn' w h den)
              :: (if (first && (i =? 0)%nat)%bool
                  then IDAT_chunks p else fdAT_chunks (sn' + 1) p).
Proof.
  induction ps as [|p ps IH]; intros first sn i fc Hnth.
  - destruct i; discriminate.
  - destruct i as [|i].
    + destruct first; cbn [frame_chunks nth_error] in Hnth;
        injection Hnth as <-; exists sn, p; auto.
    + destruct first; cbn [frame_chunks nth_error] in Hnth;
        apply IH in Hnth; destruct Hnth as (sn' & p' & Hp & ->);
        exists sn', p'; auto.
Qed.

Lemma frame_chunks_length w h den ps : forall first sn,
  length (frame_chunks w h den first sn ps) = length ps.
Proof.
  induction ps as [|p ps IH]; intros first sn; [reflexivity|].
  destruct first; cbn [frame_chunks length]; now rewrite IH.
Qed.

Lemma delay_denominator_range FPS : 0 <= delay_denominator FPS < 2 ^ 16.
Proof. apply wrap_range. lia. Qed.

(* ===================================================================== *)
(** ** Properties of the assembled stream *)
(* ===================================================================== *)

(** C1. The bytes of every blob the constructor's promise is fulfilled
    with are: the signature 89 50 4E 47 0D 0A 1A 0A; one [IHDR] chunk
    whose 13-byte payload is the width and the height of the first
    canvas and the bytes 8, 6, 0, 0, 0; one [acTL] chunk; the frame
    segments, the segment of index [i] made from the payload of canvas
    [i]; and one [IEND] chunk without payload.  When the blocks of the
    later frames leave room for their sequence number, the decoder reads
    this back with exactly one [IHDR], first, exactly one [acTL],
    second, and exactly one [IEND], last. *)
Theorem build_structure sched imgs FPS numplays blob :
  Permutation sched (seq 0 (length imgs)) ->
  APNGmaker.constructor sched imgs FPS numplays = Ok blob ->
  exists im0 rest ps,
    imgs = im0 :: rest /\ extract_all imgs = Some ps /\
    let w := can_width im0 in
    let h := can_height im0 in
    let segments := frame_chunks w h (delay_denominator FPS) true 0 ps in
    blob_bytes blob
    = PNG_signature
      ++ APNGmaker.buildChunk "IHDR"
           (be_bytes 4 w ++ be_bytes 4 h ++ map byte.of_Z [8; 6; 0; 0; 0])
      ++ APNGmaker.buildChunk "acTL"
           (be_bytes 4 (Z.of_nat (length imgs)) ++ be_bytes 4 (play_count numplays))
      ++ concat (map serialize segments)
      ++ APNGmaker.buildChunk "IEND" []
    /\ length segments = length imgs
    /\ (forall i seg, nth_error segments i = Some seg ->
          exists sn p,
            nth_error ps i = Some p
            /\ seg = ("fcTL"%string, fcTL_data sn w h (delay_denominator FPS))
                       :: (if (i =? 0)%nat then IDAT_chunks p
                           else fdAT_chunks (sn + 1) p))
    /\ (fdAT_fit (tl ps) ->
        exists cs,
          decode_chunks (skipn 8 (blob_bytes blob)) = Some cs
          /\ count_tag "IHDR" cs = 1%nat
          /\ count_tag "acTL" cs = 1%nat
          /\ count_tag "IEND" cs = 1%nat
          /\ nth_error cs 0 = Some ("IHDR"%string, IHDR_data w h)
          /\ nth_error cs 1
             = Some ("acTL"%string,
                     acTL_data (Z.of_nat (length imgs)) (play_count numplays))
          /\ last cs (EmptyString, []) = ("IEND"%string, [])).
Proof.
  intros Hperm Hrun.
  destruct (constructor_ok _ _ _ _ _ Hperm Hrun) as (im0 & rest & ps & Himgs & Hps & ->).
  exists im0, rest, ps. split; [assumption|]. split; [assumption|].
  pose proof (extract_all_length _ _ Hps) as Hlen.
  cbv zeta. cbn [blob_bytes]. repeat split.
  - unfold animation_chunks. rewrite !serialize_app, serialize_concat.
    cbn [serialize map concat fst snd app]. rewrite Hlen, !app_nil_r, <- !app_assoc.
    reflexivity.
  - now rewrite frame_chunks_length.
  - intros i seg Hseg. apply frame_chunks_nth in Hseg.
    destruct Hseg as (sn & p & Hp & ->). exists sn, p. auto.
  - intros Hfit.
    exists (animation_chunks (can_width im0) (can_height im0)
              (delay_denominator FPS) (play_count numplays) ps).
    split.
    { apply decode_after_signature, animation_chunks_fit;
        [eapply extract_all_first_fits; eauto | assumption]. }
    rewrite !count_tag_animation. cbn [String.eqb Ascii.eqb Bool.eqb].
    repeat split.
    + unfold animation_chunks. cbn [app nth_error]. now rewrite Hlen.
    + unfold animation_chunks. rewrite app_assoc. apply last_last.
Qed.

(** C4. The blob of a fulfilled promise is the signature followed by
    chunks written by [buildChunk], and in these chunks, in the order of
    the stream: the sequence numbers of the [fcTL] and [fdAT] chunks are
    the successive values 0, 1, 2, ... of the counter, written in a
    field of 32 bits, hence exactly 0, 1, 2, ... as long as there are at
    most 2^32 of them; there are as many as there are such chunks, one
    [fcTL] per frame and one [fdAT] per block of the frames after the
    first; the [IDAT] chunks hold the blocks of the first frame and
    nothing else, and carry no sequence number.  The decoder reads these
    very chunks back from the stream when the blocks of the later frames
    leave room for the four bytes of their sequence number. *)
Theorem sequence_numbers_consecutive sched imgs FPS numplays blob ps :
  Permutation sched (seq 0 (length imgs)) ->
  APNGmaker.constructor sched imgs FPS numplays = Ok blob ->
  extract_all imgs = Some ps ->
  exists cs,
    blob_bytes blob = PNG_signature ++ serialize cs
    /\ (fdAT_fit (tl ps) -> decode_chunks (skipn 8 (blob_bytes blob)) = Some cs)
    /\ sequence_numbers cs
       = map (fun k => Z.of_nat k mod 2 ^ 32)
             (seq 0 (count_tag "fcTL" cs + count_tag "fdAT" cs))
    /\ (Z.of_nat (count_tag "fcTL" cs + count_tag "fdAT" cs) <= 2 ^ 32 ->
        sequence_numbers cs
        = map Z.of_nat (seq 0 (count_tag "fcTL" cs + count_tag "fdAT" cs)))
    /\ count_tag "fcTL" cs = length imgs
    /\ count_tag "fdAT" cs = length (concat (tl ps))
    /\ filter (has_tag "IDAT") cs = IDAT_chunks (hd [] ps)
    /\ (forall c, In c cs -> has_tag "IDAT" c = true -> sequence_number c = None).
Proof.
  intros Hperm Hrun Hps.
  destruct (constructor_ok _ _ _ _ _ Hperm Hrun) as (im0 & rest & ps' & Himgs & Hps' & ->).
  assert (ps' = ps) by congruence. subst ps'.
  pose proof (extract_all_length _ _ Hps) as Hlen.
  eexists. split; [reflexivity|]. split.
  { intros Hfit. cbn [blob_bytes]. apply decode_after_signature, animation_chunks_fit;
      [eapply extract_all_first_fits; eauto | assumption]. }
  rewrite !count_tag_animation. cbn [String.eqb Ascii.eqb Bool.eqb Nat.add].
  rewrite !Nat.add_0_r, sequence_numbers_animation.
  split; [|split; [|split; [|split; [|split]]]].
  - unfold Z_range. rewrite map_map. reflexivity.
  - apply Z_range_small.
  - assumption.
  - reflexivity.
  - apply filter_IDAT_animation.
  - intros c _ Htag. unfold sequence_number, has_tag in *.
    apply String.eqb_eq in Htag. rewrite Htag. reflexivity.
Qed.

(** The [fdAT] chunks of a frame, block by block. *)
Lemma fdAT_chunks_indexed p : forall sn k,
  fdAT_chunks (sn + Z.of_nat k) p
  = map (fun jd => ("fdAT"%string, be_bytes 4 (sn + Z.of_nat (fst jd)) ++ snd jd))
        (combine (seq k (length p)) p).
Proof.
  induction p as [|d p IH]; intros sn k; [reflexivity|].
  cbn [fdAT_chunks length seq combine map fst snd]. f_equal.
  rewrite <- IH. f_equal. lia.
Qed.

(** C5, as the script has it.  The blob of a fulfilled promise is the
    signature followed by chunks written by [buildChunk], which the
    decoder reads back when the blocks of the later frames leave room
    for their sequence number, as they always do in a build of one
    frame.  In a build of one frame these chunks have exactly one
    [fcTL] chunk, one [IDAT] chunk per block of the frame, hence at
    least one when the frame has a block and none when it has none, and
    no [fdAT] chunk.  In a build of two frames the blocks of frame 0 are
    the payloads of [IDAT] chunks, as they are, and block [j] of frame 1
    is in an [fdAT] chunk whose payload is the four big-endian bytes of
    the counter, which stands at [2 + j] there, followed by the
    block. *)
Theorem first_frame_IDAT_rest_fdAT sched imgs FPS numplays blob ps :
  Permutation sched (seq 0 (length imgs)) ->
  APNGmaker.constructor sched imgs FPS numplays = Ok blob ->
  extract_all imgs = Some ps ->
  exists cs,
    blob_bytes blob = PNG_signature ++ serialize cs
    /\ (fdAT_fit (tl ps) -> decode_chunks (skipn 8 (blob_bytes blob)) = Some cs)
    /\ (length imgs = 1%nat ->
        decode_chunks (skipn 8 (blob_bytes blob)) = Some cs
        /\ count_tag "fcTL" cs = 1%nat
        /\ count_tag "IDAT" cs = length (hd [] ps)
        /\ (hd [] ps <> [] -> (1 <= count_tag "IDAT" cs)%nat)
        /\ count_tag "fdAT" cs = 0%nat)
    /\ (forall p0 p1, ps = [p0; p1] ->
        exists ihdr actl fctl0 fctl1,
          cs = [("IHDR"%string, ihdr); ("acTL"%string, actl); ("fcTL"%string, fctl0)]
               ++ map (fun d => ("IDAT"%string, d)) p0
               ++ [("fcTL"%string, fctl1)]
               ++ map (fun jd => ("fdAT"%string,
                                  be_bytes 4 (2 + Z.of_nat (fst jd)) ++ snd jd))
                      (combine (seq 0 (length p1)) p1)
               ++ [("IEND"%string, [])]
          /\ be_value (firstn 4 fctl0) = 0
          /\ be_value (firstn 4 fctl1) = 1
          /\ forall j, be_value (be_bytes 4 (2 + Z.of_nat j))
                       = (2 + Z.of_nat j) mod 2 ^ 32).
Proof.
  intros Hperm Hrun Hps.
  destruct (constructor_ok _ _ _ _ _ Hperm Hrun) as (im0 & rest & ps' & Himgs & Hps' & ->).
  assert (ps' = ps) by congruence. subst ps'.
  pose proof (extract_all_length _ _ Hps) as Hlen.
  assert (Hdec : fdAT_fit (tl ps) ->
                 decode_chunks
                   (skipn 8 (PNG_signature
                             ++ serialize (animation_chunks (can_width im0)
                                             (can_height im0) (delay_denominator FPS)
                                             (play_count numplays) ps)))
                 = Some (animation_chunks (can_width im0) (can_height im0)
                           (delay_denominator FPS) (play_count numplays) ps)).
  { intros Hfit. apply decode_after_signature, animation_chunks_fit;
      [eapply extract_all_first_fits; eauto | assumption]. }
  eexists. split; [reflexivity|]. split; [exact Hdec|]. split.
  - intros H1. rewrite !count_tag_animation. cbn [String.eqb Ascii.eqb Bool.eqb Nat.add].
    assert (Hone : length ps = 1%nat) by congruence.
    destruct ps as [|p [|q ps]]; [discriminate Hone | | discriminate Hone].
    cbn [hd tl concat length]. split; [|split; [|split; [|split]]].
    + apply Hdec. constructor.
    + reflexivity.
    + lia.
    + intros Hp. destruct p; [congruence|]. cbn [length]. lia.
    + reflexivity.
  - intros p0 p1 ->. do 4 eexists. split; [|split; [|split]].
    + unfold animation_chunks. cbn [frame_chunks concat app IDAT_chunks].
      change (0 + 1 + 1) with (2 + Z.of_nat 0). rewrite fdAT_chunks_indexed.
      rewrite app_nil_r, <- app_assoc. reflexivity.
    + reflexivity.
    + reflexivity.
    + intros j. apply be_value_be_bytes.
Qed.

Lemma bind_throw {A B} (r : result A) (k : A -> result B) e :
  r = Throw e -> bind r k = Throw e.
Proof. intros ->. reflexivity. Qed.

(** C7. When the buffer of a canvas holds, after the 33 bytes of
    signature and header and a run of [IDAT] chunks, a chunk whose type
    is neither [IDAT] nor [IEND], [lookForIDAT] throws (the value thrown
    is the type it found), the promise of the constructor is rejected,
    and no blob is produced. *)
Theorem unexpected_chunk_rejects sched imgs FPS numplays k can
        header blocks type data rest :
  Permutation sched (seq 0 (length imgs)) ->
  nth_error imgs k = Some can ->
  can_toBlob can
  = Some (header ++ serialize (IDAT_chunks blocks)
                 ++ APNGmaker.buildChunk type data ++ rest) ->
  length header = 33%nat ->
  IDAT_fit blocks ->
  String.length type = 4%nat ->
  type <> "IDAT"%string ->
  type <> "IEND"%string ->
  lookForIDAT (header ++ serialize (IDAT_chunks blocks)
                      ++ APNGmaker.buildChunk type data ++ rest)
  = Throw (Thrown type)
  /\ (exists e, APNGmaker.constructor sched imgs FPS numplays = Throw e)
  /\ (forall blob, APNGmaker.constructor sched imgs FPS numplays <> Ok blob).
Proof.
  intros Hperm Hk Hbuf Hh Hfit Hlen H1 H2.
  assert (Hthrow : lookForIDAT (header ++ serialize (IDAT_chunks blocks)
                                       ++ APNGmaker.buildChunk type data ++ rest)
                   = Throw (Thrown type)).
  { rewrite lookForIDAT_stream by assumption.
    apply String.eqb_neq in H2. now rewrite H2. }
  assert (Hrej : exists e, APNGmaker.constructor sched imgs FPS numplays = Throw e).
  { unfold APNGmaker.constructor.
    destruct (APNGmaker.init imgs FPS numplays) as [self0|e0] eqn:Einit;
      [|exists e0; reflexivity].
    cbn [bind].
    destruct (adds_fail imgs sched k can (Thrown type) (Ok self0)) as (e & He).
    - apply (Permutation_in _ (Permutation_sym Hperm)), in_seq.
      assert (nth_error imgs k <> None) as Hlt by congruence.
      apply nth_error_Some in Hlt. lia.
    - assumption.
    - unfold extract. now rewrite Hbuf.
    - exists e. apply bind_throw. exact He. }
  split; [assumption|]. split; [assumption|].
  intros blob Hblob. destruct Hrej as (e & He). congruence.
Qed.

(** C9. Every blob the promise is fulfilled with has the type given to
    the [Blob] constructor in [build], which is "image/apng" and not
    "image/png". *)
Theorem blob_type_of_build sched imgs FPS numplays blob :
  Permutation sched (seq 0 (length imgs)) ->
  APNGmaker.constructor sched imgs FPS numplays = Ok blob ->
  blob_type blob = "image/apng"%string /\ blob_type blob <> "image/png"%string.
Proof.
  intros Hperm Hrun.
  destruct (constructor_ok _ _ _ _ _ Hperm Hrun) as (im0 & rest & ps & _ & _ & ->).
  split; [reflexivity | discriminate].
Qed.

(** C8, as the script has it.  With no canvas the constructor throws a
    TypeError on reading [images[0].width], before anything is
    assembled; [build] itself, on an object whose array of payloads is
    empty, returns the signature, the [IHDR] chunk, an [acTL] chunk that
    records 0 frames, no frame segment, and the [IEND] chunk. *)
Theorem zero_frames sched FPS numplays (self : APNGmaker.this) :
  APNGmaker.images self = [] ->
  APNGmaker.frames self = [] ->
  APNGmaker.constructor sched [] FPS numplays = Throw TypeError
  /\ blob_bytes (APNGmaker.build self)
     = APNGmaker.signature self
       ++ APNGmaker.IHDR self
       ++ APNGmaker.buildChunk "acTL"
            (be_bytes 4 0 ++ be_bytes 4 (wrap 32 (ToNumber (APNGmaker.numplays self))))
       ++ APNGmaker.iEND self.
Proof.
  intros Himgs Hframes. split; [reflexivity|].
  rewrite (build_eq self []) by assumption.
  cbn [new_Blob blob_bytes frame_chunks map app concat length].
  now rewrite app_nil_r.
Qed.

Lemma delay_denominator_cases FPS :
  (ToBoolean FPS = false -> delay_denominator FPS = 30)
  /\ (ToBoolean FPS = true -> delay_denominator FPS = wrap 16 (ToNumber FPS))
  /\ (forall z, FPS = JSnum z -> 1 <= z <= 65535 -> delay_denominator FPS = z).
Proof.
  unfold delay_denominator, JS.or_else. repeat split.
  - intros ->. reflexivity.
  - intros ->. reflexivity.
  - intros z -> Hz. cbn [ToBoolean].
    replace (z =? 0) with false by (symmetry; apply Z.eqb_neq; lia).
    cbn [negb]. rewrite wrap_num. apply Z.mod_small. lia.
Qed.

Lemma play_count_cases numplays :
  (ToBoolean numplays = false -> play_count numplays = 0)
  /\ (ToBoolean numplays = true -> play_count numplays = wrap 32 (ToNumber numplays)).
Proof.
  unfold play_count, JS.or_else. split; intros ->; reflexivity.
Qed.

(** Every chunk of an animation has a type of four characters. *)
Lemma animation_chunk_types w h den plays ps :
  Forall (fun c : chunk => String.length (fst c) = 4%nat)
         (animation_chunks w h den plays ps).
Proof.
  assert (Hid : forall p, Forall (fun c : chunk => String.length (fst c) = 4%nat)
                                 (IDAT_chunks p)).
  { intros p. unfold IDAT_chunks. apply Forall_map, Forall_forall. reflexivity. }
  assert (Hfd : forall p sn, Forall (fun c : chunk => String.length (fst c) = 4%nat)
                                    (fdAT_chunks sn p)).
  { induction p as [|d p IH]; intros sn; constructor; [reflexivity | apply IH]. }
  assert (Hfr : forall first sn,
             Forall (fun c : chunk => String.length (fst c) = 4%nat)
                    (concat (frame_chunks w h den first sn ps))).
  { induction ps as [|p ps IH]; intros first sn; [constructor|].
    destruct first; cbn [frame_chunks concat];
      (apply Forall_app; split; [constructor; [reflexivity|auto] | apply IH]). }
  unfold animation_chunks. repeat (apply Forall_app; split); auto;
    repeat constructor.
Qed.

(** C10, as the script has it.  The blob of a fulfilled promise is the
    signature followed by chunks written by [buildChunk], each with a
    type of four characters, which the decoder reads back when the
    blocks of the later frames leave room for their sequence number;
    among them are one [fcTL] chunk per frame and one [acTL] chunk.
    Every [fcTL] chunk has delay numerator 1.  Its delay denominator is
    30 when FPS is omitted, 0, NaN or otherwise falsy; when FPS is
    truthy it is FPS as [setUint16] writes it: the fraction is dropped
    and the integer is reduced to the 16 bits of the field, infinities
    giving 0.  So it is FPS itself for an integer from 1 to 65535, and 0
    for 65536, for 1/2 or for Infinity.  The [acTL] chunk records play
    count 0 when numplays is omitted or falsy. *)
Theorem delay_fields sched imgs FPS numplays blob ps :
  Permutation sched (seq 0 (length imgs)) ->
  APNGmaker.constructor sched imgs FPS numplays = Ok blob ->
  extract_all imgs = Some ps ->
  exists cs,
    blob_bytes blob = PNG_signature ++ serialize cs
    /\ (fdAT_fit (tl ps) -> decode_chunks (skipn 8 (blob_bytes blob)) = Some cs)
    /\ Forall (fun c : chunk => String.length (fst c) = 4%nat) cs
    /\ count_tag "fcTL" cs = length imgs
    /\ (0 < count_tag "fcTL" cs)%nat
    /\ count_tag "acTL" cs = 1%nat
    /\ (forall c, In c cs -> has_tag "fcTL" c = true ->
          delay_num c = 1
          /\ (ToBoolean FPS = false -> delay_den c = 30)
          /\ (ToBoolean FPS = true -> delay_den c = wrap 16 (ToNumber FPS))
          /\ (forall z, FPS = JSnum z -> 1 <= z <= 65535 -> delay_den c = z)
          /\ (forall z, FPS = JSnum z -> z <> 0 -> delay_den c = z mod 65536)
          /\ (forall q, FPS = JSfraction q -> Qnum q <> 0 ->
                delay_den c = truncate q mod 65536)
          /\ (forall negative, FPS = JSinfinity negative -> delay_den c = 0))
    /\ (forall c, In c cs -> has_tag "acTL" c = true ->
          ToBoolean numplays = false -> field 4 4 (snd c) = 0).
Proof.
  intros Hperm Hrun Hps.
  destruct (constructor_ok _ _ _ _ _ Hperm Hrun) as (im0 & rest & ps' & Himgs & Hps' & ->).
  assert (ps' = ps) by congruence. subst ps'.
  pose proof (extract_all_length _ _ Hps) as Hlen.
  eexists. split; [reflexivity|]. split.
  { intros Hfit. cbn [blob_bytes]. apply decode_after_signature, animation_chunks_fit;
      [eapply extract_all_first_fits; eauto | assumption]. }
  split; [apply animation_chunk_types|].
  rewrite !count_tag_animation. cbn [String.eqb Ascii.eqb Bool.eqb Nat.add].
  rewrite !Nat.add_0_r, Hlen.
  split; [reflexivity|]. split; [subst imgs; cbn [length]; lia|].
  split; [reflexivity|]. split.
  - intros c Hc Htag.
    destruct (fcTL_in_animation _ _ _ _ _ _ Hc Htag) as (sn & ->).
    destruct (fcTL_delay sn (can_width im0) (can_height im0) (delay_denominator FPS)
                (delay_denominator_range FPS)) as (Hnum & Hden).
    rewrite Hden. split; [exact Hnum|].
    unfold delay_denominator, JS.or_else.
    split; [intros ->; reflexivity|].
    split; [intros ->; reflexivity|].
    split.
    { intros z -> Hz. cbn [ToBoolean].
      replace (z =? 0) with false by (symmetry; apply Z.eqb_neq; lia).
      cbn [negb]. rewrite wrap_num. apply Z.mod_small. lia. }
    split.
    { intros z -> Hz. cbn [ToBoolean].
      replace (z =? 0) with false by (symmetry; apply Z.eqb_neq; lia).
      cbn [negb]. apply wrap_num. }
    split.
    { intros q -> Hq. cbn [ToBoolean].
      replace (Qnum q =? 0) with false by (symmetry; apply Z.eqb_neq; lia).
      reflexivity. }
    intros negative ->. reflexivity.
  - intros c Hc Htag Hfalsy. rewrite (acTL_in_animation _ _ _ _ _ _ Hc Htag).
    cbn [snd]. unfold field, acTL_data. rewrite skipn_exact by apply be_bytes_length.
    rewrite firstn_all2 by (rewrite be_bytes_length; lia).
    unfold play_count, JS.or_else. rewrite Hfalsy. reflexivity.
Qed.

(* ===================================================================== *)
(** ** The theorems at work on a small animation *)
(* ===================================================================== *)

Lemma demo_schedule : Permutation [1; 0]%nat (seq 0 (length demo_images)).
Proof. apply perm_swap. Defined.

Lemma demo_run :
  APNGmaker.constructor [1; 0]%nat demo_images (JSnum 60) (JSnum 1) = Ok demo_blob.
Proof. vm_compute. reflexivity. Defined.

Lemma demo_extract : extract_all demo_images = Some demo_payloads.
Proof. vm_compute. reflexivity. Defined.

Lemma demo_fdAT_fit : fdAT_fit (tl demo_payloads).
Proof. repeat constructor; vm_compute; reflexivity. Defined.

Lemma build_structure_witness :
  Permutation [1; 0]%nat (seq 0 (length demo_images))
  /\ APNGmaker.constructor [1; 0]%nat demo_images (JSnum 60) (JSnum 1) = Ok demo_blob
  /\ exists cs,
       decode_chunks (skipn 8 (blob_bytes demo_blob)) = Some cs
       /\ count_tag "IHDR" cs = 1%nat
       /\ count_tag "acTL" cs = 1%nat
       /\ count_tag "IEND" cs = 1%nat
       /\ last cs (EmptyString, []) = ("IEND"%string, []).
Proof.
  split; [exact demo_schedule|]. split; [exact demo_run|].
  destruct (build_structure [1; 0]%nat demo_images (JSnum 60) (JSnum 1) demo_blob
              demo_schedule demo_run)
    as (im0 & rest & ps & Himgs & Hps & _ & _ & _ & Hdec).
  rewrite demo_extract in Hps. injection Hps as <-.
  destruct (Hdec demo_fdAT_fit) as (cs & H1 & H2 & H3 & H4 & _ & _ & H7).
  exists cs. repeat split; assumption.
Defined.

Lemma sequence_numbers_consecutive_witness :
  Permutation [1; 0]%nat (seq 0 (length demo_images))
  /\ APNGmaker.constructor [1; 0]%nat demo_images (JSnum 60) (JSnum 1) = Ok demo_blob
  /\ extract_all demo_images = Some demo_payloads
  /\ exists cs,
       decode_chunks (skipn 8 (blob_bytes demo_blob)) = Some cs
       /\ sequence_numbers cs = [0; 1; 2; 3]
       /\ count_tag "fcTL" cs = 2%nat
       /\ count_tag "fdAT" cs = 2%nat
       /\ filter (has_tag "IDAT") cs = [("IDAT"%string, bytes_of_string "red")].
Proof.
  split; [exact demo_schedule|]. split; [exact demo_run|].
  split; [exact demo_extract|].
  destruct (sequence_numbers_consecutive [1; 0]%nat demo_images (JSnum 60) (JSnum 1)
              demo_blob demo_payloads demo_schedule demo_run demo_extract)
    as (cs & _ & Hdec & _ & Hseq & Hfc & Hfd & Hid & _).
  exists cs. rewrite Hfc, Hfd in Hseq.
  split; [exact (Hdec demo_fdAT_fit)|].
  split; [apply Hseq; vm_compute; discriminate|].
  split; [exact Hfc|]. split; [exact Hfd | exact Hid].
Defined.

Lemma first_frame_IDAT_rest_fdAT_witness :
  Permutation [1; 0]%nat (seq 0 (length demo_images))
  /\ APNGmaker.constructor [1; 0]%nat demo_images (JSnum 60) (JSnum 1) = Ok demo_blob
  /\ extract_all demo_images = Some demo_payloads
  /\ exists cs ihdr actl fctl0 fctl1,
       decode_chunks (skipn 8 (blob_bytes demo_blob)) = Some cs
       /\ cs = [("IHDR"%string, ihdr); ("acTL"%string, actl); ("fcTL"%string, fctl0);
                ("IDAT"%string, bytes_of_string "red");
                ("fcTL"%string, fctl1);
                ("fdAT"%string, be_bytes 4 2 ++ bytes_of_string "gre");
                ("fdAT"%string, be_bytes 4 3 ++ bytes_of_string "en");
                ("IEND"%string, [])].
Proof.
  split; [exact demo_schedule|]. split; [exact demo_run|].
  split; [exact demo_extract|].
  destruct (first_frame_IDAT_rest_fdAT [1; 0]%nat demo_images (JSnum 60) (JSnum 1)
              demo_blob demo_payloads demo_schedule demo_run demo_extract)
    as (cs & _ & Hdec & _ & Htwo).
  destruct (Htwo _ _ eq_refl) as (ihdr & actl & fctl0 & fctl1 & Hcs & _).
  exists cs, ihdr, actl, fctl0, fctl1.
  split; [exact (Hdec demo_fdAT_fit) | exact Hcs].
Defined.

Lemma unexpected_chunk_rejects_witness :
  Permutation [1; 0]%nat (seq 0 (length [demo_canvas []; demo_bad_canvas]))
  /\ nth_error [demo_canvas []; demo_bad_canvas] 1 = Some demo_bad_canvas
  /\ length demo_header = 33%nat
  /\ IDAT_fit [bytes_of_string "red"]
  /\ String.length "XXXX" = 4%nat
  /\ "XXXX"%string <> "IDAT"%string
  /\ "XXXX"%string <> "IEND"%string
  /\ lookForIDAT (demo_header ++ serialize (IDAT_chunks [bytes_of_string "red"])
                              ++ APNGmaker.buildChunk "XXXX" []
                              ++ APNGmaker.buildChunk "IEND" [])
     = Throw (Thrown "XXXX")
  /\ (exists e, APNGmaker.constructor [1; 0]%nat [demo_canvas []; demo_bad_canvas]
                                      JSundefined JSundefined = Throw e)
  /\ (forall blob, APNGmaker.constructor [1; 0]%nat [demo_canvas []; demo_bad_canvas]
                                         JSundefined JSundefined <> Ok blob).
Proof.
  split; [apply perm_swap|]. split; [reflexivity|]. split; [reflexivity|].
  split; [repeat constructor; vm_compute; reflexivity|].
  split; [reflexivity|]. split; [discriminate|]. split; [discriminate|].
  apply (unexpected_chunk_rejects [1; 0]%nat [demo_canvas []; demo_bad_canvas]
           JSundefined JSundefined 1 demo_bad_canvas demo_header
           [bytes_of_string "red"] "XXXX" [] (APNGmaker.buildChunk "IEND" [])).
  - apply perm_swap.
  - reflexivity.
  - reflexivity.
  - reflexivity.
  - repeat constructor; vm_compute; reflexivity.
  - reflexivity.
  - discriminate.
  - discriminate.
Defined.

Lemma blob_type_of_build_witness :
  Permutation [1; 0]%nat (seq 0 (length demo_images))
  /\ APNGmaker.constructor [1; 0]%nat demo_images (JSnum 60) (JSnum 1) = Ok demo_blob
  /\ blob_type demo_blob = "image/apng"%string
  /\ blob_type demo_blob <> "image/png"%string.
Proof.
  split; [exact demo_schedule|]. split; [exact demo_run|].
  exact (blob_type_of_build [1; 0]%nat demo_images (JSnum 60) (JSnum 1) demo_blob
           demo_schedule demo_run).
Defined.

(** C5 fails on the script: a canvas whose encoding holds the header and
    the end marker and no [IDAT] chunk is accepted, and the build of
    this one frame has one [fcTL] chunk and no [IDAT] chunk. *)
Lemma one_frame_without_IDAT :
  lookForIDAT (still_image demo_header []) = Ok []
  /\ exists blob cs,
       APNGmaker.constructor [0%nat] [demo_canvas []] JSundefined JSundefined = Ok blob
       /\ decode_chunks (skipn 8 (blob_bytes blob)) = Some cs
       /\ count_tag "fcTL" cs = 1%nat
       /\ count_tag "IDAT" cs = 0%nat
       /\ count_tag "fdAT" cs = 0%nat.
Proof.
  split; [vm_compute; reflexivity|].
  eexists. eexists.
  split; [vm_compute; reflexivity|].
  split; [vm_compute; reflexivity|].
  repeat split.
Qed.

(** C8 fails on the script: a build of zero frames throws. *)
Lemma zero_frames_build_throws :
  APNGmaker.constructor [] [] JSundefined JSundefined = Throw TypeError.
Proof. reflexivity. Qed.

Lemma zero_frames_witness :
  APNGmaker.images demo_empty_object = []
  /\ APNGmaker.frames demo_empty_object = []
  /\ APNGmaker.constructor [] [] (JSnum 60) (JSnum 1) = Throw TypeError
  /\ blob_bytes (APNGmaker.build demo_empty_object)
     = APNGmaker.signature demo_empty_object
       ++ APNGmaker.IHDR demo_empty_object
       ++ APNGmaker.buildChunk "acTL"
            (be_bytes 4 0
             ++ be_bytes 4 (wrap 32 (ToNumber (APNGmaker.numplays demo_empty_object))))
       ++ APNGmaker.iEND demo_empty_object.
Proof.
  split; [reflexivity|]. split; [reflexivity|].
  apply (zero_frames [] (JSnum 60) (JSnum 1) demo_empty_object); reflexivity.
Defined.

(** C10 fails on the script: 65536 is truthy, and the frame control
    chunk of a build with FPS = 65536 carries delay denominator 0. *)
Lemma FPS_65536_delay_denominator_0 :
  ToBoolean (JSnum 65536) = true
  /\ exists blob cs c,
       APNGmaker.constructor [0%nat] [demo_canvas [bytes_of_string "red"]]
                             (JSnum 65536) JSundefined = Ok blob
       /\ decode_chunks (skipn 8 (blob_bytes blob)) = Some cs
       /\ In c cs
       /\ has_tag "fcTL" c = true
       /\ delay_den c = 0
       /\ delay_den c <> 65536.
Proof.
  split; [reflexivity|].
  eexists. eexists. eexists.
  split; [vm_compute; reflexivity|].
  split; [vm_compute; reflexivity|].
  split; [right; right; left; reflexivity|].
  split; [reflexivity|].
  split; [vm_compute; reflexivity | vm_compute; discriminate].
Qed.

Lemma delay_fields_witness :
  Permutation [1; 0]%nat (seq 0 (length demo_images))
  /\ APNGmaker.constructor [1; 0]%nat demo_images (JSnum 60) (JSnum 1) = Ok demo_blob
  /\ extract_all demo_images = Some demo_payloads
  /\ exists cs,
       decode_chunks (skipn 8 (blob_bytes demo_blob)) = Some cs
       /\ count_tag "fcTL" cs = 2%nat
       /\ (forall c, In c cs -> has_tag "fcTL" c = true ->
             delay_num c = 1 /\ delay_den c = 60).
Proof.
  split; [exact demo_schedule|]. split; [exact demo_run|].
  split; [exact demo_extract|].
  destruct (delay_fields [1; 0]%nat demo_images (JSnum 60) (JSnum 1) demo_blob
              demo_payloads demo_schedule demo_run demo_extract)
    as (cs & _ & Hdec & _ & Hcount & _ & _ & Hfc & _).
  exists cs. split; [exact (Hdec demo_fdAT_fit)|]. split; [exact Hcount|].
  intros c Hc Htag. destruct (Hfc c Hc Htag) as (Hnum & _ & _ & Hden & _).
  split; [exact Hnum|]. apply (Hden 60 eq_refl). lia.
Defined.

(** A fractional FPS is written without its fraction: 2997/100 gives
    delay denominator 29, and 1/2, which is truthy, gives 0. *)
Lemma fractional_FPS_is_truncated :
  (let FPS := JSfraction (2997 # 100) in
   ToBoolean FPS = true /\ wrap 16 (ToNumber FPS) = 29)
  /\ (let FPS := JSfraction (1 # 2) in
      ToBoolean FPS = true /\ wrap 16 (ToNumber FPS) = 0).
Proof. vm_compute. repeat split. Qed.

(* ===================================================================== *)
(** ** Further properties of the functions *)
(* ===================================================================== *)

(** *** joinBuffers and buildChunk on any arguments *)

(** X1. [joinBuffers] returns its arguments one after the other, in
    order, in a buffer whose length is the sum of their lengths. *)
Theorem joinBuffers_is_concatenation (buffers : list ArrayBuffer) :
  joinBuffers buffers = concat buffers
  /\ length (joinBuffers buffers) = list_sum (map (@length byte) buffers).
Proof.
  rewrite joinBuffers_concat. split; [reflexivity|].
  induction buffers as [|b bs IH]; [reflexivity|].
  cbn [concat map list_sum]. rewrite length_app, IH. reflexivity.
Qed.

Lemma tag_bytes_any type :
  [tag_byte type 0; tag_byte type 1; tag_byte type 2; tag_byte type 3]
  = firstn 4 (bytes_of_string type ++ repeat Byte.x00 4).
Proof.
  destruct type as [|a [|b [|c [|d t]]]];
    unfold tag_byte, charCodeAt; cbn [String.get Nat.eqb];
    rewrite ?wrap_num, ?byte_of_Z_mod, ?byte_of_char_code; reflexivity.
Qed.

(** X2. For any data and any type whose characters have codes up to 255
    (the strings of this model; the script passes ASCII types only),
    [buildChunk] returns 12 bytes more than the data; the length field
    holds the length of the data reduced to 32 bits; the type field
    holds the first four characters of the type, a type shorter than
    four characters being filled up with zero bytes and the characters
    after the fourth being dropped; the data follow unchanged. *)
Theorem buildChunk_any_arguments (type : string) (data : ArrayBuffer) :
  let c := APNGmaker.buildChunk type data in
  length c = (12 + length data)%nat
  /\ be_value (firstn 4 c) = byteLength data mod 2 ^ 32
  /\ firstn 4 (skipn 4 c) = firstn 4 (bytes_of_string type ++ repeat Byte.x00 4)
  /\ firstn (length data) (skipn 8 c) = data.
Proof.
  cbv zeta. rewrite buildChunk_length, buildChunk_eq, tag_bytes_any.
  set (T := firstn 4 (bytes_of_string type ++ repeat Byte.x00 4)).
  assert (HT : length T = 4%nat).
  { unfold T. rewrite length_firstn, length_app, repeat_length. lia. }
  repeat split.
  - rewrite firstn_exact by apply be_bytes_length. apply be_value_be_bytes.
  - rewrite skipn_exact by apply be_bytes_length. now apply firstn_exact.
  - rewrite app_assoc, skipn_exact by (rewrite length_app, be_bytes_length; lia).
    now apply firstn_exact.
Qed.

(** *** crc32 stays inside its table *)

Lemma crc_index crc d :
  JS.bitxor (JS.bitand crc 255) (byte.unsigned d)
  = Z.land (Z.lxor (ToUint32 crc) (byte.unsigned d)) 255.
Proof.
  pose proof (byte.unsigned_range d) as Hd.
  set (w := Z.land (Z.lxor (ToUint32 crc) (byte.unsigned d)) 255).
  assert (Hw : 0 <= w < 2 ^ 8).
  { unfold w. change 255 with (Z.ones 8). rewrite Z.land_ones by lia.
    apply Z.mod_pos_bound. reflexivity. }
  assert (Hu : ToUint32 (JS.bitxor (JS.bitand crc 255) (byte.unsigned d)) = w).
  { rewrite ToUint32_xor, ToUint32_and.
    rewrite (ToUint32_small 255) by lia.
    rewrite (ToUint32_small (byte.unsigned d)) by lia.
    unfold w.
    assert (Hd' : byte.unsigned d = Z.land (byte.unsigned d) 255).
    { change 255 with (Z.ones 8). rewrite Z.land_ones by lia.
      symmetry. apply Z.mod_small. lia. }
    rewrite Hd' at 1.
    apply Z.bits_inj'. intros n Hn.
    rewrite !Z.lxor_spec, !Z.land_spec, !Z.lxor_spec. bits_cases. }
  unfold JS.bitxor at 1. unfold JS.bitxor at 1 in Hu.
  rewrite ToUint32_ToInt32 in Hu.
  rewrite ToInt32_byte; rewrite Hu; [reflexivity | assumption].
Qed.

(** X3. The table of [crc32] has 256 entries, every entry is an unsigned
    32-bit number, and whatever the register and the data byte, the
    index [crc & 255 ^ data[i]] at which the loop reads the table is one
    of 0, ..., 255: no read falls outside the table.  The checksum
    returned is an unsigned 32-bit number. *)
Theorem crc32_table_reads (crc : Z) (d : byte) (ab : ArrayBuffer) :
  length crc_table_value = 256%nat
  /\ Forall (fun entry => 0 <= entry < 2 ^ 32) crc_table_value
  /\ 0 <= JS.bitxor (JS.bitand crc 255) (byte.unsigned d) < 256
  /\ 0 <= crc32 ab < 2 ^ 32.
Proof.
  split; [reflexivity|]. split.
  { apply Forall_forall. intros entry Hin.
    assert (Hall : forallb (fun e => (0 <=? e) && (e <? 2 ^ 32)) crc_table_value = true)
      by (vm_compute; reflexivity).
    rewrite forallb_forall in Hall. specialize (Hall entry Hin).
    apply andb_true_iff in Hall. destruct Hall as [H0 H1].
    apply Z.leb_le in H0. apply Z.ltb_lt in H1. lia. }
  split; [|apply crc32_range].
  rewrite crc_index. change 255 with (Z.ones 8). rewrite Z.land_ones by lia.
  apply Z.mod_pos_bound. reflexivity.
Qed.

(** *** lookForIDAT on buffers that end too early *)

(** X4. On a buffer of fewer than 41 bytes, the empty buffer among them,
    [lookForIDAT] throws a RangeError: there is no room for a chunk type
    at offset 37. *)
Theorem lookForIDAT_short_buffer (ab : ArrayBuffer) :
  byteLength ab < 41 -> lookForIDAT ab = Throw RangeError.
Proof.
  intros H. unfold lookForIDAT. cbn [lookForIDAT_loop].
  unfold Uint8Array_view.
  replace (37 + 4 <=? byteLength ab) with false
    by (symmetry; apply Z.leb_gt; lia).
  reflexivity.
Qed.

Lemma lookForIDAT_short_buffer_witness :
  byteLength [] < 41 /\ lookForIDAT [] = Throw RangeError.
Proof.
  split; [reflexivity|]. apply (lookForIDAT_short_buffer []). reflexivity.
Defined.

(** X5. When the buffer ends after its [IDAT] chunks without an [IEND]
    chunk (fewer than 8 bytes are left), [lookForIDAT] throws a
    RangeError; the blocks read so far are lost. *)
Theorem lookForIDAT_no_end_marker (header : list byte) (blocks : list ArrayBuffer)
        (rest : list byte) :
  length header = 33%nat ->
  IDAT_fit blocks ->
  (length rest < 8)%nat ->
  lookForIDAT (header ++ serialize (IDAT_chunks blocks) ++ rest) = Throw RangeError.
Proof.
  intros Hh Hfit Hrest. unfold lookForIDAT.
  set (ab := header ++ _).
  assert (Hf : exists f, S (length ab) = (length blocks + S f)%nat).
  { exists (length ab - length blocks)%nat.
    unfold ab. rewrite !length_app. pose proof (serialize_IDAT_length blocks). lia. }
  destruct Hf as [f ->].
  replace 37 with (Z.of_nat (length header) + 4) by lia.
  unfold ab. rewrite lookForIDAT_loop_run by assumption.
  cbn [lookForIDAT_loop]. unfold Uint8Array_view, byteLength.
  rewrite !length_app.
  match goal with
  | |- context [?a + 4 + 4 <=? ?b] =>
      replace (a + 4 + 4 <=? b) with false by (symmetry; apply Z.leb_gt; lia)
  end.
  rewrite !andb_false_r. reflexivity.
Qed.

Lemma lookForIDAT_no_end_marker_witness :
  length demo_header = 33%nat
  /\ IDAT_fit [bytes_of_string "red"]
  /\ (length (bytes_of_string "IEN") < 8)%nat
  /\ lookForIDAT (demo_header ++ serialize (IDAT_chunks [bytes_of_string "red"])
                              ++ bytes_of_string "IEN")
     = Throw RangeError.
Proof.
  split; [reflexivity|].
  split; [repeat constructor; vm_compute; reflexivity|].
  split; [vm_compute; lia|].
  apply (lookForIDAT_no_end_marker demo_header [bytes_of_string "red"]
           (bytes_of_string "IEN")).
  - reflexivity.
  - repeat constructor; vm_compute; reflexivity.
  - vm_compute. lia.
Defined.

(** *** lookForIDAT reads lengths and types only *)

Section RawTurn.

Variables (pre len4 type4 post : list byte).
Hypothesis len4_length : length len4 = 4%nat.
Hypothesis type4_length : length type4 = 4%nat.

Lemma raw_type_read :
  Uint8Array_view (pre ++ len4 ++ type4 ++ post) (Z.of_nat (length pre) + 4) 4
  = Ok type4.
Proof.
  rewrite (app_assoc pre len4).
  replace (Z.of_nat (length pre) + 4) with (Z.of_nat (length (pre ++ len4)))
    by (rewrite length_app; lia).
  replace 4 with (Z.of_nat (length type4)) by lia.
  apply Uint8Array_view_app.
Qed.

Lemma raw_length_read :
  getUint32 (pre ++ len4 ++ type4 ++ post) (Z.of_nat (length pre) + 4 - 4)
  = Ok (be_value len4).
Proof.
  unfold getUint32.
  replace (Z.of_nat (length pre) + 4 - 4) with (Z.of_nat (length pre)) by lia.
  replace 4 with (Z.of_nat (length len4)) by lia.
  now rewrite Uint8Array_view_app.
Qed.

Lemma raw_data_read data post' :
  post = data ++ post' ->
  Uint8Array_view (pre ++ len4 ++ type4 ++ post) (Z.of_nat (length pre) + 4 + 4)
                  (byteLength data)
  = Ok data.
Proof.
  intros ->.
  replace (pre ++ len4 ++ type4 ++ data ++ post')
    with ((pre ++ len4 ++ type4) ++ data ++ post')
    by now rewrite <- !app_assoc.
  replace (Z.of_nat (length pre) + 4 + 4)
    with (Z.of_nat (length (pre ++ len4 ++ type4)))
    by (rewrite !length_app; lia).
  apply Uint8Array_view_app.
Qed.

(** The data of a chunk whose length field promises more than the buffer
    holds cannot be read. *)
Lemma raw_data_missing l :
  byteLength post < l ->
  Uint8Array_view (pre ++ len4 ++ type4 ++ post) (Z.of_nat (length pre) + 4 + 4) l
  = Throw RangeError.
Proof.
  intros H. unfold Uint8Array_view, byteLength in *. rewrite !length_app.
  match goal with
  | |- context [?a <=? ?b] =>
      lazymatch a with
      | _ + l => replace (a <=? b) with false by (symmetry; apply Z.leb_gt; lia)
      end
  end.
  now rewrite andb_false_r.
Qed.

End RawTurn.

(** X6. When the length field of an [IDAT] chunk promises more data than
    the buffer still holds, [lookForIDAT] throws a RangeError. *)
Theorem lookForIDAT_truncated_data (header : list byte) (blocks : list ArrayBuffer)
        (l : Z) (tail : list byte) :
  length header = 33%nat ->
  IDAT_fit blocks ->
  0 <= l < 2 ^ 32 ->
  byteLength tail < l ->
  lookForIDAT (header ++ serialize (IDAT_chunks blocks)
                      ++ be_bytes 4 l ++ bytes_of_string "IDAT" ++ tail)
  = Throw RangeError.
Proof.
  intros Hh Hfit Hl Htail. unfold lookForIDAT.
  set (ab := header ++ _).
  assert (Hf : exists f, S (length ab) = (length blocks + S f)%nat).
  { exists (length ab - length blocks)%nat.
    unfold ab. rewrite !length_app. pose proof (serialize_IDAT_length blocks). lia. }
  destruct Hf as [f ->].
  replace 37 with (Z.of_nat (length header) + 4) by lia.
  unfold ab. rewrite lookForIDAT_loop_run by assumption.
  rewrite (app_assoc header). cbn [lookForIDAT_loop].
  rewrite raw_type_read by (apply be_bytes_length || reflexivity).
  rewrite fromCharCode_bytes. cbn [String.eqb Ascii.eqb Bool.eqb].
  rewrite raw_length_read by (apply be_bytes_length || reflexivity).
  rewrite be_value_be_bytes_small by (change (256 ^ Z.of_nat 4) with (2 ^ 32); lia).
  rewrite raw_data_missing by (apply be_bytes_length || reflexivity || assumption).
  reflexivity.
Qed.

Lemma lookForIDAT_truncated_data_witness :
  length demo_header = 33%nat
  /\ IDAT_fit [bytes_of_string "red"]
  /\ 0 <= 5 < 2 ^ 32
  /\ byteLength (bytes_of_string "gre") < 5
  /\ lookForIDAT (demo_header ++ serialize (IDAT_chunks [bytes_of_string "red"])
                              ++ be_bytes 4 5 ++ bytes_of_string "IDAT"
                              ++ bytes_of_string "gre")
     = Throw RangeError.
Proof.
  split; [reflexivity|].
  split; [repeat constructor; vm_compute; reflexivity|].
  split; [lia|]. split; [reflexivity|].
  apply (lookForIDAT_truncated_data demo_header [bytes_of_string "red"] 5
           (bytes_of_string "gre")).
  - reflexivity.
  - repeat constructor; vm_compute; reflexivity.
  - lia.
  - reflexivity.
Defined.

Lemma lookForIDAT_loop_raw_IDAT fuel pre data check post IDATs :
  byteLength data < 2 ^ 32 ->
  length check = 4%nat ->
  lookForIDAT_loop (S fuel) (pre ++ raw_chunk "IDAT" data check ++ post)
                   (Z.of_nat (length pre) + 4) IDATs
  = lookForIDAT_loop fuel (pre ++ raw_chunk "IDAT" data check ++ post)
                     (Z.of_nat (length (pre ++ raw_chunk "IDAT" data check)) + 4)
                     (IDATs ++ [data]).
Proof.
  intros Hfit Hcheck. unfold raw_chunk. rewrite <- !app_assoc.
  cbn [lookForIDAT_loop].
  rewrite raw_type_read by (apply be_bytes_length || reflexivity).
  rewrite fromCharCode_bytes. cbn [String.eqb Ascii.eqb Bool.eqb].
  rewrite raw_length_read by (apply be_bytes_length || reflexivity).
  rewrite be_value_be_bytes_small
    by (unfold byteLength in *; change (256 ^ Z.of_nat 4) with (2 ^ 32); lia).
  rewrite (raw_data_read pre (be_bytes 4 (byteLength data)) (bytes_of_string "IDAT")
             (data ++ check ++ post) (be_bytes_length 4 _) eq_refl
             data (check ++ post) eq_refl).
  replace (Z.to_nat (byteLength data)) with (length data)
    by (unfold byteLength; now rewrite Nat2Z.id).
  rewrite set8_fresh. f_equal.
  rewrite !length_app, be_bytes_length, bytes_of_string_length.
  cbn [String.length]. unfold byteLength. lia.
Qed.

Lemma lookForIDAT_loop_raw_run chunks : forall fuel pre post IDATs,
  Forall (fun dc => byteLength (fst dc) < 2 ^ 32 /\ length (snd dc) = 4%nat) chunks ->
  lookForIDAT_loop (length chunks + fuel)
    (pre ++ concat (map (fun dc => raw_chunk "IDAT" (fst dc) (snd dc)) chunks) ++ post)
    (Z.of_nat (length pre) + 4) IDATs
  = lookForIDAT_loop fuel
      (pre ++ concat (map (fun dc => raw_chunk "IDAT" (fst dc) (snd dc)) chunks) ++ post)
      (Z.of_nat (length (pre ++ concat (map (fun dc => raw_chunk "IDAT" (fst dc) (snd dc))
                                            chunks))) + 4)
      (IDATs ++ map fst chunks).
Proof.
  induction chunks as [|[d c] chunks IH]; intros fuel pre post IDATs Hfit.
  - cbn [map concat length Nat.add app]. now rewrite !app_nil_r.
  - inversion Hfit as [|? ? [Hd Hc] Hfit']; subst. cbn [fst snd] in *.
    cbn [map concat length Nat.add fst snd].
    rewrite <- !app_assoc.
    rewrite lookForIDAT_loop_raw_IDAT by assumption.
    rewrite (app_assoc pre (raw_chunk "IDAT" d c)).
    rewrite IH by assumption.
    rewrite <- !app_assoc. reflexivity.
Qed.

(** X7. [lookForIDAT] checks no checksum and reads neither the length
    field of the [IEND] chunk nor anything after its type: whatever four
    bytes stand in the place of each checksum and of the last length
    field, and whatever follows the type [IEND], the data blocks are
    returned, in order. *)
Theorem lookForIDAT_checks_no_checksum (header : list byte)
        (chunks : list (ArrayBuffer * list byte)) (len4 rest : list byte) :
  length header = 33%nat ->
  Forall (fun dc => byteLength (fst dc) < 2 ^ 32 /\ length (snd dc) = 4%nat) chunks ->
  length len4 = 4%nat ->
  lookForIDAT (header
               ++ concat (map (fun dc => raw_chunk "IDAT" (fst dc) (snd dc)) chunks)
               ++ len4 ++ bytes_of_string "IEND" ++ rest)
  = Ok (map fst chunks).
Proof.
  intros Hh Hfit Hlen. unfold lookForIDAT.
  set (ab := header ++ _).
  assert (Hf : exists f, S (length ab) = (length chunks + S f)%nat).
  { exists (length ab - length chunks)%nat.
    assert (Hge : (length chunks
                   <= length (concat (map (fun dc => raw_chunk "IDAT" (fst dc) (snd dc))
                                          chunks)))%nat).
    { clear. induction chunks as [|[d c] chunks IH]; [simpl; lia|].
      cbn [map concat length fst snd]. rewrite length_app. unfold raw_chunk at 1.
      rewrite length_app, be_bytes_length. lia. }
    unfold ab. rewrite !length_app. lia. }
  destruct Hf as [f ->].
  replace 37 with (Z.of_nat (length header) + 4) by lia.
  unfold ab. rewrite lookForIDAT_loop_raw_run by assumption.
  rewrite (app_assoc header). cbn [lookForIDAT_loop].
  rewrite raw_type_read by (assumption || reflexivity).
  rewrite fromCharCode_bytes. reflexivity.
Qed.

Lemma lookForIDAT_checks_no_checksum_witness :
  length demo_header = 33%nat
  /\ Forall (fun dc : ArrayBuffer * list byte =>
               byteLength (fst dc) < 2 ^ 32 /\ length (snd dc) = 4%nat)
            [(bytes_of_string "red", bytes_of_string "????");
             (bytes_of_string "green", bytes_of_string "!!!!")]
  /\ length (bytes_of_string "9999") = 4%nat
  /\ lookForIDAT
       (demo_header
        ++ concat (map (fun dc => raw_chunk "IDAT" (fst dc) (snd dc))
                       [(bytes_of_string "red", bytes_of_string "????");
                        (bytes_of_string "green", bytes_of_string "!!!!")])
        ++ bytes_of_string "9999" ++ bytes_of_string "IEND"
        ++ bytes_of_string "trailing")
     = Ok [bytes_of_string "red"; bytes_of_string "green"].
Proof.
  split; [reflexivity|].
  split; [repeat constructor; vm_compute; reflexivity|].
  split; [reflexivity|].
  apply (lookForIDAT_checks_no_checksum demo_header
           [(bytes_of_string "red", bytes_of_string "????");
            (bytes_of_string "green", bytes_of_string "!!!!")]
           (bytes_of_string "9999") (bytes_of_string "trailing")).
  - reflexivity.
  - repeat constructor; vm_compute; reflexivity.
  - reflexivity.
Defined.

(** *** What lookForIDAT accepts *)

Lemma be_bytes_be_value : forall n bs, length bs = n -> be_bytes n (be_value bs) = bs.
Proof.
  induction n as [|m IH]; intros bs Hlen.
  - destruct bs; [reflexivity | discriminate].
  - destruct bs as [|b bs]; [discriminate|]. injection Hlen as Hlen.
    cbn [be_bytes]. rewrite be_value_cons, Hlen.
    pose proof (be_value_range bs) as R. rewrite Hlen in R.
    assert (Hpow : 0 < 256 ^ Z.of_nat m) by (apply Z.pow_pos_nonneg; lia).
    f_equal.
    + rewrite Z.shiftr_div_pow2 by lia.
      replace (2 ^ (8 * Z.of_nat m)) with (256 ^ Z.of_nat m)
        by (rewrite Z.pow_mul_r by lia; reflexivity).
      rewrite Z.div_add_l by lia. rewrite (Z.div_small (be_value bs)) by lia.
      rewrite Z.add_0_r. apply byte.of_Z_unsigned.
    + rewrite <- be_bytes_mod.
      rewrite Z.add_comm, Z.mod_add by lia.
      rewrite Z.mod_small by lia. now apply IH.
Qed.

Lemma Uint8Array_view_split ab off len bs :
  Uint8Array_view ab off len = Ok bs ->
  skipn (Z.to_nat off) ab = bs ++ skipn (Z.to_nat (off + len)) ab
  /\ length bs = Z.to_nat len
  /\ 0 <= off /\ 0 <= len /\ off + len <= byteLength ab.
Proof.
  intros H. apply Uint8Array_view_ok in H. destruct H as (Ho & Hl & Hin & ->).
  unfold byteLength in Hin. repeat split; try assumption.
  - rewrite Z2Nat.inj_add by assumption.
    rewrite (Nat.add_comm (Z.to_nat off)), <- skipn_skipn.
    now rewrite firstn_skipn.
  - rewrite length_firstn, length_skipn. lia.
Qed.

Lemma fromCharCode_inj bs s : fromCharCode bs = s -> bs = bytes_of_string s.
Proof.
  intros <-. unfold fromCharCode, bytes_of_string.
  now rewrite list_byte_of_string_of_list_byte.
Qed.

Lemma lookForIDAT_loop_shape ab : forall fuel offset IDATs blocks,
  4 <= offset ->
  lookForIDAT_loop fuel ab offset IDATs = Some (Ok blocks) ->
  exists chunks len4 rest,
    skipn (Z.to_nat (offset - 4)) ab
    = concat (map (fun dc => raw_chunk "IDAT" (fst dc) (snd dc)) chunks)
      ++ len4 ++ bytes_of_string "IEND" ++ rest
    /\ Forall (fun dc => byteLength (fst dc) < 2 ^ 32 /\ length (snd dc) = 4%nat) chunks
    /\ length len4 = 4%nat
    /\ blocks = IDATs ++ map fst chunks.
Proof.
  induction fuel as [|fuel IH]; intros offset IDATs blocks Hoff; [discriminate|].
  cbn [lookForIDAT_loop].
  destruct (Uint8Array_view ab offset 4) as [T|e] eqn:ET; [|discriminate].
  apply Uint8Array_view_split in ET. destruct ET as (HT & HTlen & _ & _ & HTin).
  assert (HL : Uint8Array_view ab (offset - 4) 4
               = Ok (firstn 4 (skipn (Z.to_nat (offset - 4)) ab))).
  { unfold Uint8Array_view.
    replace (0 <=? offset - 4) with true by (symmetry; apply Z.leb_le; lia).
    replace (offset - 4 + 4 <=? byteLength ab) with true
      by (symmetry; apply Z.leb_le; lia).
    reflexivity. }
  pose proof (Uint8Array_view_split _ _ _ _ HL) as (HLs & HLlen & _).
  replace (offset - 4 + 4) with offset in HLs by lia.
  set (L := firstn 4 (skipn (Z.to_nat (offset - 4)) ab)) in *.
  destruct (String.eqb (fromCharCode T) "IDAT") eqn:Eidat.
  - apply String.eqb_eq, fromCharCode_inj in Eidat. subst T.
    unfold getUint32. rewrite HL. cbn [bind].
    destruct (Uint8Array_view ab (offset + 4) (be_value L)) as [src|e] eqn:Es;
      [|discriminate].
    apply Uint8Array_view_split in Es. destruct Es as (Hs & Hslen & _ & Hl0 & _).
    replace (Z.to_nat (be_value L)) with (length src) by lia.
    rewrite set8_fresh. intros Hrun.
    apply IH in Hrun; [|lia].
    destruct Hrun as (chunks & len4 & rest & Hshape & Hfit & Hlen4 & ->).
    replace (offset + (be_value L + 12) - 4) with (offset + 4 + be_value L + 4)
      in Hshape by lia.
    set (tl4 := skipn (Z.to_nat (offset + 4 + be_value L)) ab) in *.
    assert (Hcheck : tl4 = firstn 4 tl4 ++ skipn (Z.to_nat (offset + 4 + be_value L + 4)) ab).
    { unfold tl4. rewrite (Z2Nat.inj_add (offset + 4 + be_value L) 4) by lia.
      rewrite (Nat.add_comm _ (Z.to_nat 4)), <- skipn_skipn.
      symmetry. apply firstn_skipn. }
    assert (Hchecklen : length (firstn 4 tl4) = 4%nat).
    { rewrite length_firstn. unfold tl4. rewrite length_skipn.
      assert (8 <= length (skipn (Z.to_nat (offset + 4 + be_value L + 4)) ab))%nat.
      { rewrite Hshape, !length_app, Hlen4. simpl. lia. }
      rewrite length_skipn in H. lia. }
    set (check := firstn 4 tl4) in *.
    exists ((src, check) :: chunks), len4, rest.
    repeat split.
    + cbn [map concat fst snd]. unfold raw_chunk at 1.
      rewrite HLs, HT, Hs, Hcheck, Hshape.
      assert (HLL : be_bytes 4 (byteLength src) = L).
      { unfold byteLength. rewrite Hslen, Z2Nat.id by assumption.
        now apply be_bytes_be_value. }
      rewrite HLL, <- !app_assoc. reflexivity.
    + constructor; [|assumption]. cbn [fst snd]. split; [|assumption].
      unfold byteLength. rewrite Hslen, Z2Nat.id by assumption.
      pose proof (be_value_range L) as R. rewrite HLlen in R.
      change (256 ^ Z.of_nat (Z.to_nat 4)) with (2 ^ 32) in R. lia.
    + assumption.
    + cbn [map fst]. now rewrite <- app_assoc.
  - destruct (String.eqb (fromCharCode T) "IEND") eqn:Eiend; [|discriminate].
    apply String.eqb_eq, fromCharCode_inj in Eiend. subst T.
    intros [= <-]. exists [], L, (skipn (Z.to_nat (offset + 4)) ab).
    repeat split.
    + cbn [map concat app]. now rewrite HLs, HT.
    + constructor.
    + exact HLlen.
    + now rewrite app_nil_r.
Qed.

(** X8. [lookForIDAT] returns blocks only from a buffer of this shape:
    33 bytes, then [IDAT] chunks (length, type, data, four more bytes),
    then four bytes and the type [IEND]; and the blocks returned are the
    data of those chunks, in order.  Every other buffer makes it
    throw. *)
Theorem lookForIDAT_accepts_only (ab : ArrayBuffer) (blocks : list ArrayBuffer) :
  lookForIDAT ab = Ok blocks ->
  exists header chunks len4 rest,
    ab = header
         ++ concat (map (fun dc => raw_chunk "IDAT" (fst dc) (snd dc)) chunks)
         ++ len4 ++ bytes_of_string "IEND" ++ rest
    /\ length header = 33%nat
    /\ Forall (fun dc => byteLength (fst dc) < 2 ^ 32 /\ length (snd dc) = 4%nat) chunks
    /\ length len4 = 4%nat
    /\ blocks = map fst chunks.
Proof.
  unfold lookForIDAT.
  destruct (lookForIDAT_loop (S (length ab)) ab 37 []) as [r|] eqn:E; [|discriminate].
  intros ->.
  destruct (lookForIDAT_loop_shape ab (S (length ab)) 37 [] blocks)
    as (chunks & len4 & rest & Hshape & Hfit & Hlen4 & Hblocks); [lia | exact E |].
  change (Z.to_nat (37 - 4)) with 33%nat in Hshape.
  exists (firstn 33 ab), chunks, len4, rest.
  repeat split; try assumption.
  - rewrite <- Hshape. symmetry. apply firstn_skipn.
  - rewrite length_firstn.
    assert (8 <= length (skipn 33 ab))%nat
      by (rewrite Hshape, !length_app, Hlen4; simpl; lia).
    rewrite length_skipn in H. lia.
Qed.

Lemma lookForIDAT_accepts_only_witness :
  lookForIDAT (still_image demo_header [bytes_of_string "red"])
  = Ok [bytes_of_string "red"]
  /\ exists header chunks len4 rest,
       still_image demo_header [bytes_of_string "red"]
       = header
         ++ concat (map (fun dc => raw_chunk "IDAT" (fst dc) (snd dc)) chunks)
         ++ len4 ++ bytes_of_string "IEND" ++ rest
       /\ length header = 33%nat
       /\ [bytes_of_string "red"] = map fst chunks.
Proof.
  assert (H : lookForIDAT (still_image demo_header [bytes_of_string "red"])
              = Ok [bytes_of_string "red"]) by (vm_compute; reflexivity).
  split; [exact H|].
  destruct (lookForIDAT_accepts_only _ _ H)
    as (header & chunks & len4 & rest & Hab & Hh & _ & _ & Hb).
  exists header, chunks, len4, rest. repeat split; assumption.
Defined.

(** *** The promise of the constructor *)

(** X9. The promise is fulfilled exactly when there is at least one
    canvas and every canvas yields its payload list, in whatever order
    the calls of [add] finish. *)
Theorem constructor_fulfilled_iff sched imgs FPS numplays :
  Permutation sched (seq 0 (length imgs)) ->
  (exists blob, APNGmaker.constructor sched imgs FPS numplays = Ok blob)
  <-> (imgs <> [] /\ exists ps, extract_all imgs = Some ps).
Proof.
  intros Hperm. split.
  - intros (blob & Hrun).
    destruct (constructor_ok _ _ _ _ _ Hperm Hrun) as (im0 & rest & ps & -> & Hps & _).
    split; [discriminate | eauto].
  - intros (Hne & ps & Hps). eapply constructor_succeeds; eauto.
Qed.

Lemma constructor_fulfilled_iff_witness :
  Permutation [1; 0]%nat (seq 0 (length demo_images))
  /\ ((exists blob, APNGmaker.constructor [1; 0]%nat demo_images (JSnum 60) (JSnum 1)
                    = Ok blob)
      <-> (demo_images <> [] /\ exists ps, extract_all demo_images = Some ps)).
Proof.
  split; [exact demo_schedule|].
  exact (constructor_fulfilled_iff [1; 0]%nat demo_images (JSnum 60) (JSnum 1)
           demo_schedule).
Defined.

(** X10. The blob does not depend on the order in which the calls of
    [add] finish: a build fulfilled under one order is fulfilled with
    the same blob under every other. *)
Theorem constructor_order_independent sched sched' imgs FPS numplays blob :
  Permutation sched (seq 0 (length imgs)) ->
  Permutation sched' (seq 0 (length imgs)) ->
  APNGmaker.constructor sched imgs FPS numplays = Ok blob ->
  APNGmaker.constructor sched' imgs FPS numplays = Ok blob.
Proof.
  intros Hperm Hperm' Hrun.
  destruct (constructor_ok _ _ _ _ _ Hperm Hrun) as (im0 & rest & ps & Himgs & Hps & ->).
  destruct (constructor_succeeds sched' imgs FPS numplays ps) as (blob' & Hrun');
    [subst imgs; discriminate | assumption |].
  rewrite Hrun'. f_equal.
  destruct (constructor_ok _ _ _ _ _ Hperm' Hrun')
    as (im0' & rest' & ps' & Himgs' & Hps' & ->).
  assert (ps' = ps) by congruence.
  assert (im0' = im0) by congruence.
  subst. reflexivity.
Qed.

Lemma constructor_order_independent_witness :
  Permutation [1; 0]%nat (seq 0 (length demo_images))
  /\ Permutation [0; 1]%nat (seq 0 (length demo_images))
  /\ APNGmaker.constructor [1; 0]%nat demo_images (JSnum 60) (JSnum 1) = Ok demo_blob
  /\ APNGmaker.constructor [0; 1]%nat demo_images (JSnum 60) (JSnum 1) = Ok demo_blob.
Proof.
  split; [exact demo_schedule|]. split; [apply Permutation_refl|].
  split; [exact demo_run|].
  exact (constructor_order_independent [1; 0]%nat [0; 1]%nat demo_images
           (JSnum 60) (JSnum 1) demo_blob
           demo_schedule (Permutation_refl _) demo_run).
Defined.

(** X11. The promise is rejected with what the first failing call
    throws, first in the order in which the calls finish: a TypeError
    when the canvas gave no blob, and otherwise what [lookForIDAT]
    threw.  The calls that finish later do not change it. *)
Theorem constructor_first_rejection imgs FPS numplays pre k post can e :
  Forall (fun i => forall c, nth_error imgs i = Some c -> exists p, extract c = Ok p)
         pre ->
  nth_error imgs k = Some can ->
  extract can = Throw e ->
  APNGmaker.constructor (pre ++ k :: post) imgs FPS numplays = Throw e
  /\ (can_toBlob can = None -> e = TypeError).
Proof.
  intros Hpre Hk Hex. split.
  - unfold APNGmaker.constructor.
    destruct (APNGmaker.init imgs FPS numplays) as [self0|e0] eqn:Einit.
    + cbn [bind]. rewrite fold_left_app.
      destruct (adds_succeed imgs pre self0) as (self' & ->).
      { intros i c Hi Hc. rewrite Forall_forall in Hpre. exact (Hpre i Hi c Hc). }
      cbn [fold_left]. unfold APNGmaker.add_step at 2. cbn [bind].
      rewrite Hk, (add_throw _ _ _ _ Hex), adds_throw. reflexivity.
    + destruct imgs; [destruct k; discriminate | discriminate].
  - intros Hnull. unfold extract in Hex. rewrite Hnull in Hex. congruence.
Qed.

Lemma constructor_first_rejection_witness :
  Forall (fun i => forall c, nth_error [demo_canvas []; demo_bad_canvas] i = Some c ->
                             exists p, extract c = Ok p) [0%nat]
  /\ nth_error [demo_canvas []; demo_bad_canvas] 1 = Some demo_bad_canvas
  /\ extract demo_bad_canvas = Throw (Thrown "XXXX")
  /\ APNGmaker.constructor ([0%nat] ++ 1%nat :: []) [demo_canvas []; demo_bad_canvas]
                           JSundefined JSundefined
     = Throw (Thrown "XXXX").
Proof.
  assert (H0 : Forall (fun i => forall c,
                         nth_error [demo_canvas []; demo_bad_canvas] i = Some c ->
                         exists p, extract c = Ok p) [0%nat]).
  { constructor; [|constructor]. intros c [= <-]. exists []. vm_compute. reflexivity. }
  assert (H1 : extract demo_bad_canvas = Throw (Thrown "XXXX"))
    by (vm_compute; reflexivity).
  split; [exact H0|]. split; [reflexivity|]. split; [exact H1|].
  exact (proj1 (constructor_first_rejection [demo_canvas []; demo_bad_canvas]
                  JSundefined JSundefined [0%nat] 1%nat [] demo_bad_canvas
                  (Thrown "XXXX") H0 eq_refl H1)).
Defined.

Lemma extract_all_still_images imgs ps :
  Forall2 (fun can p => exists header,
             length header = 33%nat /\ IDAT_fit p
             /\ can_toBlob can = Some (still_image header p)) imgs ps ->
  extract_all imgs = Some ps.
Proof.
  induction 1 as [|can p imgs ps (header & Hh & Hfit & Hblob) _ IH]; [reflexivity|].
  cbn [extract_all]. unfold extract at 1. rewrite Hblob, IH.
  unfold still_image. rewrite <- (app_nil_r (APNGmaker.buildChunk "IEND" [])).
  rewrite lookForIDAT_stream by (assumption || reflexivity || discriminate).
  reflexivity.
Qed.

(** X12. From canvases that all encode to single-still-image buffers
    (33 bytes, the blocks as [IDAT] chunks, [IEND]) the build always
    succeeds, in whatever order the calls finish, and the blob is the
    signature followed by the chunks of the animation made of exactly
    those blocks, with the size of the first canvas. *)
Theorem build_of_still_images sched im0 rest ps FPS numplays :
  Permutation sched (seq 0 (length (im0 :: rest))) ->
  Forall2 (fun can p => exists header,
             length header = 33%nat /\ IDAT_fit p
             /\ can_toBlob can = Some (still_image header p)) (im0 :: rest) ps ->
  APNGmaker.constructor sched (im0 :: rest) FPS numplays
  = Ok {| blob_bytes :=
            PNG_signature
            ++ serialize (animation_chunks (can_width im0) (can_height im0)
                            (delay_denominator FPS) (play_count numplays) ps);
          blob_type := "image/apng" |}.
Proof.
  intros Hperm Hall. apply extract_all_still_images in Hall.
  destruct (constructor_succeeds sched (im0 :: rest) FPS numplays ps) as (blob & Hrun);
    [discriminate | assumption |].
  rewrite Hrun. f_equal.
  destruct (constructor_ok _ _ _ _ _ Hperm Hrun)
    as (im0' & rest' & ps' & Himgs & Hps' & ->).
  assert (ps' = ps) by congruence.
  assert (im0' = im0) by congruence.
  subst. reflexivity.
Qed.

Lemma build_of_still_images_witness :
  Permutation [1; 0]%nat
              (seq 0 (length (demo_canvas [bytes_of_string "red"]
                              :: [demo_canvas [bytes_of_string "gre";
                                               bytes_of_string "en"]])))
  /\ APNGmaker.constructor [1; 0]%nat
       (demo_canvas [bytes_of_string "red"]
        :: [demo_canvas [bytes_of_string "gre"; bytes_of_string "en"]])
       (JSnum 60) (JSnum 1)
     = Ok {| blob_bytes :=
               PNG_signature
               ++ serialize (animation_chunks 4 4 60 1 demo_payloads);
             blob_type := "image/apng" |}.
Proof.
  split; [apply perm_swap|].
  apply (build_of_still_images [1; 0]%nat (demo_canvas [bytes_of_string "red"])
           [demo_canvas [bytes_of_string "gre"; bytes_of_string "en"]]
           demo_payloads (JSnum 60) (JSnum 1)).
  - apply perm_swap.
  - repeat constructor; exists demo_header;
      (split; [reflexivity|]); (split; [|reflexivity]);
      repeat constructor; vm_compute; reflexivity.
Defined.

(** *** What the control chunks hold *)

Lemma fcTL_fields sn w h den :
  length (fcTL_data sn w h den) = 26%nat
  /\ field 4 4 (fcTL_data sn w h den) = w mod 2 ^ 32
  /\ field 4 8 (fcTL_data sn w h den) = h mod 2 ^ 32
  /\ field 4 12 (fcTL_data sn w h den) = 0
  /\ field 4 16 (fcTL_data sn w h den) = 0
  /\ field 1 24 (fcTL_data sn w h den) = 0
  /\ field 1 25 (fcTL_data sn w h den) = 0.
Proof.
  unfold field. repeat split.
  - change (firstn 4 (skipn 4 (fcTL_data sn w h den))) with (be_bytes 4 w).
    apply be_value_be_bytes.
  - change (firstn 4 (skipn 8 (fcTL_data sn w h den))) with (be_bytes 4 h).
    apply be_value_be_bytes.
Qed.

(** X13. The blob of a build is the signature followed by chunks
    written by [buildChunk], each with a type of four characters, which
    the decoder reads back when the blocks of the later frames leave
    room for their sequence number.  One chunk per canvas among them is
    an [fcTL] chunk, and every [fcTL] chunk has a payload of 26 bytes
    that carries the width and the height of the first canvas (reduced
    to 32 bits), offsets 0 and 0, dispose and blend operations 0 and 0:
    the sizes of the other canvases are never read. *)
Theorem fcTL_geometry sched im0 rest FPS numplays blob ps :
  Permutation sched (seq 0 (length (im0 :: rest))) ->
  APNGmaker.constructor sched (im0 :: rest) FPS numplays = Ok blob ->
  extract_all (im0 :: rest) = Some ps ->
  exists cs,
    blob_bytes blob = PNG_signature ++ serialize cs
    /\ (fdAT_fit (tl ps) -> decode_chunks (skipn 8 (blob_bytes blob)) = Some cs)
    /\ Forall (fun c : chunk => String.length (fst c) = 4%nat) cs
    /\ count_tag "fcTL" cs = length (im0 :: rest)
    /\ forall c, In c cs -> has_tag "fcTL" c = true ->
         length (snd c) = 26%nat
         /\ field 4 4 (snd c) = can_width im0 mod 2 ^ 32
         /\ field 4 8 (snd c) = can_height im0 mod 2 ^ 32
         /\ field 4 12 (snd c) = 0
         /\ field 4 16 (snd c) = 0
         /\ field 1 24 (snd c) = 0
         /\ field 1 25 (snd c) = 0.
Proof.
  intros Hperm Hrun Hps.
  destruct (constructor_ok _ _ _ _ _ Hperm Hrun) as (im0' & rest' & ps' & Himgs & Hps' & ->).
  assert (ps' = ps) by congruence. subst ps'.
  pose proof (extract_all_length _ _ Hps) as Hlen.
  injection Himgs as <- <-.
  eexists. split; [reflexivity|]. split.
  { intros Hfit. cbn [blob_bytes]. apply decode_after_signature, animation_chunks_fit;
      [eapply extract_all_first_fits; eauto | assumption]. }
  split; [apply animation_chunk_types|]. split.
  { rewrite count_tag_animation. cbn [String.eqb Ascii.eqb Bool.eqb Nat.add].
    rewrite !Nat.add_0_r. exact Hlen. }
  intros c Hc Htag.
  destruct (fcTL_in_animation _ _ _ _ _ _ Hc Htag) as (sn & ->).
  cbn [snd]. apply fcTL_fields.
Qed.

Lemma fcTL_geometry_witness :
  Permutation [1; 0]%nat
              (seq 0 (length (demo_canvas [bytes_of_string "red"]
                              :: [demo_canvas [bytes_of_string "gre";
                                               bytes_of_string "en"]])))
  /\ APNGmaker.constructor [1; 0]%nat
       (demo_canvas [bytes_of_string "red"]
        :: [demo_canvas [bytes_of_string "gre"; bytes_of_string "en"]])
       (JSnum 60) (JSnum 1)
     = Ok demo_blob
  /\ extract_all (demo_canvas [bytes_of_string "red"]
                  :: [demo_canvas [bytes_of_string "gre"; bytes_of_string "en"]])
     = Some demo_payloads
  /\ exists cs,
       decode_chunks (skipn 8 (blob_bytes demo_blob)) = Some cs
       /\ count_tag "fcTL" cs = 2%nat
       /\ forall c, In c cs -> has_tag "fcTL" c = true ->
            field 4 4 (snd c) = 4 /\ field 4 8 (snd c) = 4.
Proof.
  split; [exact demo_schedule|]. split; [exact demo_run|].
  split; [exact demo_extract|].
  destruct (fcTL_geometry [1; 0]%nat (demo_canvas [bytes_of_string "red"])
              [demo_canvas [bytes_of_string "gre"; bytes_of_string "en"]]
              (JSnum 60) (JSnum 1) demo_blob demo_payloads
              demo_schedule demo_run demo_extract)
    as (cs & _ & Hdec & _ & Hcount & Hall).
  exists cs. split; [exact (Hdec demo_fdAT_fit)|]. split; [exact Hcount|].
  intros c Hc Htag. destruct (Hall c Hc Htag) as (_ & Hw & Hh & _).
  split; [exact Hw | exact Hh].
Defined.



(** *** The output is not an input *)

(** X15. The blob of a build is not a buffer [lookForIDAT] accepts: at
    offset 37 lies the type of the [acTL] chunk, and [lookForIDAT]
    throws it. *)
Theorem lookForIDAT_rejects_output sched imgs FPS numplays blob :
  Permutation sched (seq 0 (length imgs)) ->
  APNGmaker.constructor sched imgs FPS numplays = Ok blob ->
  lookForIDAT (blob_bytes blob) = Throw (Thrown "acTL").
Proof.
  intros Hperm Hrun.
  destruct (constructor_ok _ _ _ _ _ Hperm Hrun) as (im0 & rest & ps & _ & _ & ->).
  cbn [blob_bytes]. unfold animation_chunks.
  rewrite serialize_app. cbn [serialize map concat fst snd].
  rewrite app_nil_r, <- !app_assoc.
  rewrite (app_assoc PNG_signature).
  change (APNGmaker.buildChunk "acTL" ?x ++ ?r)
    with (serialize (IDAT_chunks []) ++ APNGmaker.buildChunk "acTL" x ++ r).
  rewrite lookForIDAT_stream.
  - reflexivity.
  - rewrite length_app, buildChunk_length. reflexivity.
  - constructor.
  - reflexivity.
  - discriminate.
Qed.

Lemma lookForIDAT_rejects_output_witness :
  Permutation [1; 0]%nat (seq 0 (length demo_images))
  /\ APNGmaker.constructor [1; 0]%nat demo_images (JSnum 60) (JSnum 1) = Ok demo_blob
  /\ lookForIDAT (blob_bytes demo_blob) = Throw (Thrown "acTL").
Proof.
  split; [exact demo_schedule|]. split; [exact demo_run|].
  exact (lookForIDAT_rejects_output [1; 0]%nat demo_images (JSnum 60) (JSnum 1)
           demo_blob demo_schedule demo_run).
Defined.

(** *** build keeps what this.frames holds *)

(** X16. [build] does not empty [this.frames]: on an object that
    already holds frame segments it writes those first, after the
    [acTL] chunk, and the segments of the payloads after them; the
    [acTL] chunk counts the payloads only. *)
Theorem build_appends_to_frames (self : APNGmaker.this) ps :
  APNGmaker.images self = map Some ps ->
  blob_bytes (APNGmaker.build self)
  = APNGmaker.signature self
    ++ APNGmaker.IHDR self
    ++ APNGmaker.buildChunk "acTL"
         (acTL_data (Z.of_nat (length ps))
                    (wrap 32 (ToNumber (APNGmaker.numplays self))))
    ++ concat (APNGmaker.frames self)
    ++ concat (map serialize
                   (frame_chunks (APNGmaker.width self) (APNGmaker.height self)
                                 (wrap 16 (ToNumber (APNGmaker.FPS self))) true 0 ps))
    ++ APNGmaker.iEND self.
Proof.
  intros Himgs. unfold APNGmaker.build. cbv zeta.
  rewrite acTL_buffer, Himgs, length_map. unfold forEach.
  destruct (build_frames self ps 0 (APNGmaker.frames self) 0%nat) as (sn' & ->).
  cbn [fst new_Blob blob_bytes Nat.eqb app concat].
  rewrite !concat_app. cbn [concat]. rewrite app_nil_r, <- !app_assoc. reflexivity.
Qed.

Lemma build_appends_to_frames_witness :
  APNGmaker.images demo_used_object = map Some [[bytes_of_string "red"]]
  /\ blob_bytes (APNGmaker.build demo_used_object)
     = PNG_signature
       ++ APNGmaker.buildChunk "IHDR" (IHDR_data 4 4)
       ++ APNGmaker.buildChunk "acTL" (acTL_data 1 0)
       ++ concat [bytes_of_string "earlier"]
       ++ concat (map serialize
                      (frame_chunks 4 4 30 true 0 [[bytes_of_string "red"]]))
       ++ APNGmaker.buildChunk "IEND" [].
Proof.
  split; [reflexivity|].
  exact (build_appends_to_frames demo_used_object [[bytes_of_string "red"]] eq_refl).
Defined.
